(** * Bastion Manager: slot calculator, occupancy builder, visibility and
    drop handlers

    A shallow embedding of the decision logic of the Bastion Manager module
    (scripts/module.mjs, scripts/bastion-detail.mjs,
    scripts/bastion-overview.mjs).  JavaScript numbers that hold integers are
    [Z]; a property that may be missing is an [option]; objects used as
    dictionaries are [gmap]s, and an object that the code enumerates is the
    list of its properties in creation order; arrays are lists.  [await] is
    sequencing: the code has a single thread of control. *)

From Stdlib Require Import ZArith.
From stdpp Require Import gmap strings list sorting.

#[local] Open Scope Z_scope.

(** ** JavaScript values and operators used by the module *)

Module Js.

Inductive value : Type :=
| undefined
| null
| boolean (b : bool)
| number (n : Z)
| text (s : string).

Definition truthy (v : value) : bool :=
  match v with
  | undefined | null => false
  | boolean b => b
  | number n => negb (n =? 0)
  | text s => negb (String.eqb s "")
  end.

(** [a || b] *)
Definition or (a b : value) : value := if truthy a then a else b.

(** [v !== false] *)
Definition strict_ne_false (v : value) : bool :=
  match v with
  | boolean false => false
  | _ => true
  end.

(** [n || d] for an integer property that may be missing *)
Definition int_or (n : option Z) (d : Z) : Z :=
  match n with
  | Some v => if v =? 0 then d else v
  | None => d
  end.

(** truthiness of an integer property that may be missing *)
Definition int_truthy (n : option Z) : bool :=
  match n with
  | Some v => negb (v =? 0)
  | None => false
  end.

(** truthiness of a string property that may be missing or null *)
Definition str_truthy (s : option string) : bool :=
  match s with
  | Some s => negb (String.eqb s "")
  | None => false
  end.

(** [b] read as a value, [undefined] when the property is missing *)
Definition of_bool (b : option bool) : value :=
  match b with
  | Some b => boolean b
  | None => undefined
  end.

End Js.

(** ** Host documents and configuration *)

(** The two keys of [CONFIG.DND5E.facilities.advancement]. *)
Inductive FacilityType : Type := basic | special.

#[global] Instance FacilityType_eq_dec : EqDecision FacilityType.
Proof. solve_decision. Defined.

Definition type_name (t : FacilityType) : string :=
  match t with
  | basic => "basic"
  | special => "special"
  end.

(** A level table [{ level: slots, ... }]: the own properties of the object
    in the order of their creation, each key once.  The keys are canonical
    non-negative integer property names. *)
Abbreviation LevelTable := (list (N * Z)).

Definition key_le : relation (N * Z) := λ a b, (a.1 ≤ b.1)%N.

#[global] Instance key_le_dec a b : Decision (key_le a b) :=
  decide (a.1 ≤ b.1)%N.

(** An integer property name is an array index when it is below 2^32 - 1. *)
Definition array_index (k : N) : Prop := (k < 4294967295)%N.

#[global] Instance array_index_dec k : Decision (array_index k) :=
  decide (k < 4294967295)%N.

(** [Object.entries(config)]: JavaScript enumerates the array-index keys
    first, in ascending numeric order, and then every other key in the order
    of its creation. *)
Definition Object_entries (config : LevelTable) : list (N * Z) :=
  merge_sort key_le (filter (λ e, array_index e.1) config)
  ++ filter (λ e, ¬ array_index e.1) config.

Record Advancement : Type := {
  adv_basic : LevelTable;
  adv_special : LevelTable
}.

(** [Object.entries(advancement)] *)
Definition advancement_entries (advancement : Advancement)
    : list (FacilityType * LevelTable) :=
  [(basic, adv_basic advancement); (special, adv_special advancement)].

Definition adv_config (advancement : Advancement) (t : FacilityType) : LevelTable :=
  match t with
  | basic => adv_basic advancement
  | special => adv_special advancement
  end.

(** One entry of the [buildingOverrides] setting. *)
Record Overrides : Type := {
  ov_basic : option Z;
  ov_special : option Z
}.

(** [{ max, value }] of [system.defenders], [system.hirelings] and
    [system.trade.creatures]; an element of [value] is a uuid, or [None] for
    a null entry. *)
Record OccupantData : Type := {
  od_value : option (list (option string));
  od_max : option Z
}.

(** An item document; the [system] fields are those of a facility. *)
Record Item : Type := {
  item_id : string;
  item_name : string;
  item_type : string;
  sys_type_value : option string;
  sys_level : option Z;
  sys_free : bool;
  sys_building : bool;
  sys_disabled : bool;
  sys_defenders : option OccupantData;
  sys_hirelings : option OccupantData;
  sys_creatures : option OccupantData
}.

(** What the module reads of an actor document.  [isOwner] is the host's
    ownership flag of the document, [ownership] its per-user level map. *)
Record Actor : Type := {
  actor_name : string;
  actor_kind : string;
  isOwner : bool;
  ownership : gmap string Z;
  details_level : option Z;
  items : list Item
}.

(** [actor.itemTypes.facility] *)
Definition itemTypes_facility (actor : Actor) : list Item :=
  filter (λ i, item_type i = "facility") (items actor).

(** What [fromUuid] gives for an occupant. *)
Record Entity : Type := {
  ent_name : string;
  ent_img : string;
  ent_uuid : string
}.

(** [Object.entries(config).reverse().find(([lvl]) => Number(lvl) <= level)] *)
Definition find_level (config : LevelTable) (level : Z) : option (N * Z) :=
  List.find (λ e, bool_decide (Z.of_N e.1 ≤ level)) (reverse (Object_entries config)).

(** ** scripts/bastion-detail.mjs: render context *)

Module BastionDetail.

Record OccupantSlot : Type := {
  index : Z;
  uuid : option string;
  actor : option Entity;
  empty : bool
}.

Record FacilityCtx : Type := {
  id : string;
  isSpecial : bool;
  disabled : bool;
  building : bool;
  free : bool;
  defenders : list OccupantSlot;
  hirelings : list OccupantSlot;
  creatures : list OccupantSlot;
  hasOccupants : bool
}.

Record Available : Type := { label : string }.

Record Slots : Type := {
  chosen : list FacilityCtx;
  value : option Z;
  max : option Z;
  override : option Z;
  available : list Available
}.

Record Facilities : Type := {
  f_basic : Slots;
  f_special : Slots
}.

Definition slots_of (f : Facilities) (t : FacilityType) : Slots :=
  match t with
  | basic => f_basic f
  | special => f_special f
  end.

Section Rendering.

(** The host's [fromUuid], [None] when the entity no longer exists. *)
Variable fromUuid : string → option Entity.

(** [uuids[i]], [undefined] past the end *)
Definition uuid_at (uuids : list (option string)) (i : Z) : option string :=
  if i <? 0 then None else mjoin (uuids !! Z.to_nat i).

(** The body of the [for] loop: the slot pushed at index [i]. *)
Definition occupant_slot (uuids : list (option string)) (i : Z) : OccupantSlot :=
  let uuid := uuid_at uuids i in
  if Js.str_truthy uuid then
    let actor := uuid ≫= fromUuid in
    {| index := i; uuid := uuid; actor := actor;
       empty := negb (bool_decide (is_Some actor)) |}
  else
    {| index := i; uuid := None; actor := None; empty := true |}.

(** [for (let i = ...; i < max; i++) occupants.push(...)], [n] being the
    number of iterations left. *)
Fixpoint occupants_loop (uuids : list (option string)) (n : nat) (i : Z)
    (occupants : list OccupantSlot) : list OccupantSlot :=
  match n with
  | O => occupants
  | S n => occupants_loop uuids n (i + 1) (occupants ++ [occupant_slot uuids i])
  end.

Definition _prepareOccupants (occupantData : option OccupantData)
    : list OccupantSlot :=
  let len := Z.of_nat ∘ length <$> (occupantData ≫= od_value) in
  if negb (Js.int_truthy len) && negb (Js.int_truthy (occupantData ≫= od_max))
  then []
  else
    let max := Js.int_or (occupantData ≫= od_max) 0 in
    let uuids := default [] (occupantData ≫= od_value) in
    occupants_loop uuids (Z.to_nat (max - 0)) 0 [].

(** The context of one facility.  Its progress, order, craft and subtitle
    entries are display data that no slot computation reads; they are left
    out of [FacilityCtx]. *)
Definition _prepareFacilityContext (facility : Item) : FacilityCtx :=
  let isSpecial := bool_decide (sys_type_value facility = Some "special") in
  let defenders := _prepareOccupants (sys_defenders facility) in
  let hirelings := _prepareOccupants (sys_hirelings facility) in
  let creatures := _prepareOccupants (sys_creatures facility) in
  {| id := item_id facility;
     isSpecial := isSpecial;
     disabled := sys_disabled facility;
     building := sys_building facility;
     free := sys_free facility;
     defenders := defenders;
     hirelings := hirelings;
     creatures := creatures;
     hasOccupants :=
       bool_decide (0 < length defenders)%nat
       || bool_decide (0 < length hirelings)%nat
       || bool_decide (0 < length creatures)%nat |}.

(** The first loop of [_prepareFacilitiesContext]: each facility context
    is pushed on [special.chosen] or on [basic.chosen]. *)
Fixpoint choose (facilityItems : list Item)
    (chosen : list FacilityCtx * list FacilityCtx)
    : list FacilityCtx * list FacilityCtx :=
  match facilityItems with
  | [] => chosen
  | facility :: rest =>
      let ctx := _prepareFacilityContext facility in
      if isSpecial ctx
      then choose rest (chosen.1, chosen.2 ++ [ctx])
      else choose rest (chosen.1 ++ [ctx], chosen.2)
  end.

(** The body of the loop over the advancement entries, which fills
    [facilities[type]]. *)
Definition slots_for (type : FacilityType) (config : LevelTable) (level : Z)
    (overrides : Overrides) (chosen : list FacilityCtx) : Slots :=
  let baseAvailable := snd <$> find_level config level in
  let override :=
    match type with
    | basic => Js.int_or (ov_basic overrides) 0
    | special => Js.int_or (ov_special overrides) 0
    end in
  let totalAvailable := Js.int_or baseAvailable 0 + override in
  let current :=
    Z.of_nat (length (filter
      (λ f, bool_decide (type = basic) || negb (free f) = true) chosen)) in
  let remaining := Z.max 0 (totalAvailable - current) in
  {| chosen := chosen;
     value := Some current;
     max := Some totalAvailable;
     override := Some override;
     available :=
       replicate (Z.to_nat remaining)
         {| label := "DND5E.FACILITY.AvailableFacility." +:+ type_name type +:+ ".free" |} |}.

(** Basic facilities always have at least one build slot. *)
Definition ensure_build_slot (s : Slots) : Slots :=
  if bool_decide (length (available s) = 0%nat) then
    {| chosen := chosen s; value := value s; max := max s; override := override s;
       available :=
         available s ++ [{| label := "DND5E.FACILITY.AvailableFacility.basic.build" |}] |}
  else s.

(** [actor] is [this.actor], [advancement] is
    [CONFIG.DND5E.facilities.advancement] and [overrides] is what
    [getBuildingOverrides(this.actorId)] returned.  The loop over
    [Object.entries(advancement)] runs its body once for each of the two
    types, and an iteration writes [facilities[type]] only. *)
Definition _prepareFacilitiesContext (actor : option Actor)
    (advancement : Advancement) (overrides : Overrides) : Facilities :=
  match actor with
  | None =>
      {| f_basic := {| chosen := []; value := None; max := None;
                       override := None; available := [] |};
         f_special := {| chosen := []; value := None; max := None;
                         override := None; available := [] |} |}
  | Some actor =>
      let facilityItems := itemTypes_facility actor in
      let chosen := choose facilityItems ([], []) in
      let level := Js.int_or (details_level actor) 1 in
      let for_type type cs :=
        slots_for type (adv_config advancement type) level overrides cs in
      {| f_basic := ensure_build_slot (for_type basic chosen.1);
         f_special := for_type special chosen.2 |}
  end.

End Rendering.

(** An entry of the defenders or hirelings roster. *)
Record RosterEntry : Type := {
  r_uuid : option string;
  r_index : Z;
  facilityId : string;
  facilityName : string
}.

(** The loop of [_prepareDefendersContext] and [_prepareHirelingsContext],
    which differ in the occupant data they read: a facility with no entry is
    skipped, every entry of the others is pushed with its index. *)
Definition roster_of (occupants : Item → option OccupantData)
    (actor : option Actor) : list RosterEntry :=
  let facilities := default [] (itemTypes_facility <$> actor) in
  foldl (λ roster facility,
           let data := occupants facility in
           if negb (Js.int_truthy (Z.of_nat ∘ length <$> (data ≫= od_value)))
           then roster
           else roster ++
                imap (λ i uuid, {| r_uuid := uuid; r_index := Z.of_nat i;
                                   facilityId := item_id facility;
                                   facilityName := item_name facility |})
                     (default [] (data ≫= od_value)))
        [] facilities.

Definition _prepareDefendersContext (actor : option Actor) : list RosterEntry :=
  roster_of sys_defenders actor.

Definition _prepareHirelingsContext (actor : option Actor) : list RosterEntry :=
  roster_of sys_hirelings actor.

End BastionDetail.

(** ** scripts/bastion-overview.mjs: building limits of a card *)

Module BastionOverview.

(** The body of the loop over the advancement entries; [limits] is
    [(basicMax, specialMax)]. *)
Definition limits_step (level : Z) (overrides : Overrides) (limits : Z * Z)
    (entry : FacilityType * LevelTable) : Z * Z :=
  let available := snd <$> find_level entry.2 level in
  if bool_decide (entry.1 = basic)
  then (Js.int_or available 0 + Js.int_or (ov_basic overrides) 0, limits.2)
  else (limits.1, Js.int_or available 0 + Js.int_or (ov_special overrides) 0).

(** [basicMax] and [specialMax] of [_prepareBastionsContext] for one actor. *)
Definition building_limits (actor : Actor) (advancement : Advancement)
    (overrides : Overrides) : Z * Z :=
  let level := Js.int_or (details_level actor) 1 in
  foldl (limits_step level overrides) (0, 0) (advancement_entries advancement).

End BastionOverview.

(** ** scripts/module.mjs: the manager object *)

Module Manager.

Record User : Type := {
  user_id : string;
  isGM : bool
}.

(** One entry of the [visibilitySettings] setting. *)
Record Visibility : Type := {
  vis_public : option bool;
  vis_users : option (list string)
}.

(** What the manager reads of [game]; a setting is [None] when the store
    holds a falsy value for it. *)
Record Game : Type := {
  user : User;
  users : gmap string User;
  actors : gmap string Actor;
  buildingOverrides : option (gmap string Overrides);
  visibilitySettings : option (gmap string Visibility);
  enabledBastions : option (gmap string Js.value)
}.

Definition getBuildingOverrides (game : Game) (actorId : string) : Overrides :=
  let overrides := default ∅ (buildingOverrides game) in
  default {| ov_basic := Some 0; ov_special := Some 0 |} (overrides !! actorId).

(** [userId] is [None] when the caller leaves the argument out. *)
Definition canViewBastion (game : Game) (actorId : string)
    (userId : option string) : Js.value :=
  let userId := default (user_id (user game)) userId in
  if default false (isGM <$> (users game !! userId)) then Js.boolean true
  else
    let actor := actors game !! actorId in
    if default false (isOwner <$> actor) then Js.boolean true
    else
      let visibility := default ∅ (visibilitySettings game) in
      let actorVisibility :=
        default {| vis_public := None; vis_users := None |} (visibility !! actorId) in
      Js.or (Js.of_bool (vis_public actorVisibility))
            (match vis_users actorVisibility with
             | Some listed => Js.boolean (bool_decide (userId ∈ listed))
             | None => Js.undefined
             end).

Definition isBastionEnabled (game : Game) (actorId : string) : bool :=
  let enabled := default ∅ (enabledBastions game) in
  Js.strict_ne_false (default Js.undefined (enabled !! actorId)).

(** [game.settings.set(MODULE_ID, key, data)] for the three mappings. *)
Definition with_buildingOverrides (data : gmap string Overrides) (game : Game) : Game :=
  {| user := user game; users := users game; actors := actors game;
     buildingOverrides := Some data;
     visibilitySettings := visibilitySettings game;
     enabledBastions := enabledBastions game |}.

Definition with_visibilitySettings (data : gmap string Visibility) (game : Game) : Game :=
  {| user := user game; users := users game; actors := actors game;
     buildingOverrides := buildingOverrides game;
     visibilitySettings := Some data;
     enabledBastions := enabledBastions game |}.

Definition with_enabledBastions (data : gmap string Js.value) (game : Game) : Game :=
  {| user := user game; users := users game; actors := actors game;
     buildingOverrides := buildingOverrides game;
     visibilitySettings := visibilitySettings game;
     enabledBastions := Some data |}.

Definition setBuildingOverrides (game : Game) (actorId : string)
    (overrides : Overrides) : Game :=
  if negb (isGM (user game)) then game
  else
    let data := default ∅ (buildingOverrides game) in
    with_buildingOverrides (<[actorId := overrides]> data) game.

Definition setVisibility (game : Game) (actorId : string)
    (settings : Visibility) : Game :=
  let actor := actors game !! actorId in
  if negb (default false (isOwner <$> actor)) && negb (isGM (user game)) then game
  else
    let data := default ∅ (visibilitySettings game) in
    with_visibilitySettings (<[actorId := settings]> data) game.

(** The manager object next to [game]: whether its overview window is
    rendered, and how often [render] was called on it. *)
Record Session : Type := {
  game : Game;
  overview_rendered : bool;
  overview_renders : nat
}.

Definition setBastionEnabled (s : Session) (actorId : string)
    (isEnabled : bool) : Session :=
  if negb (isGM (user (game s))) then s
  else
    let data := default ∅ (enabledBastions (game s)) in
    {| game := with_enabledBastions (<[actorId := Js.boolean isEnabled]> data) (game s);
       overview_rendered := overview_rendered s;
       overview_renders :=
         if overview_rendered s then S (overview_renders s) else overview_renders s |}.

(** One entry of the [bastionData] setting: the display data of a bastion.
    A key that the entry does not hold is [None]. *)
Record BastionData : Type := {
  bd_name : option string;
  bd_image : option string;
  bd_accentColor : option string;
  bd_fadeAmount : option Z;
  bd_disableFade : option bool;
  bd_textColor : option string;
  bd_textOutline : option bool
}.

(** [{}] *)
Definition no_data : BastionData :=
  {| bd_name := None; bd_image := None; bd_accentColor := None;
     bd_fadeAmount := None; bd_disableFade := None; bd_textColor := None;
     bd_textOutline := None |}.

(** The settings store: the mappings of [Game] and the [bastionData]
    mapping. *)
Record Store : Type := {
  store_game : Game;
  bastionData : option (gmap string BastionData)
}.

Definition getBastionData (store : Store) (actorId : string) : BastionData :=
  let data := default ∅ (bastionData store) in
  default no_data (data !! actorId).

Section Merge.

(** The host's [foundry.utils.mergeObject]. *)
Variable mergeObject : BastionData → BastionData → BastionData.

Definition setBastionData (store : Store) (actorId : string)
    (newData : BastionData) : Store :=
  let data := default ∅ (bastionData store) in
  {| store_game := store_game store;
     bastionData :=
       Some (<[actorId := mergeObject (default no_data (data !! actorId)) newData]> data) |}.

End Merge.

End Manager.

(** ** scripts/bastion-detail.mjs: drop handlers

    A handler runs against the documents of the detail view and the host's
    notification area.  What it does to the DOM ([preventDefault], the
    [drag-over] class) is not part of the state. *)

Module BastionDetailEvents.

Inductive Severity : Type := info | warn | error.

(** A call of [ui.notifications.<severity>]; [message] is the localisation
    key handed to [game.i18n]. *)
Record Notification : Type := {
  severity : Severity;
  message : string
}.

Record World : Type := {
  this_actor : option Actor;
  game_user_isGM : bool;
  notifications : list Notification;
  renders : nat
}.

(** How a handler ends: it returns, or a [TypeError] escapes it. *)
Inductive Outcome (A : Type) : Type :=
| Returned (a : A)
| Thrown.
Arguments Returned {A} a.
Arguments Thrown {A}.

Definition M (A : Type) : Type := World → Outcome A * World.

#[global] Instance M_ret : MRet M := λ A a w, (Returned a, w).

#[global] Instance M_bind : MBind M := λ A B f m w,
  match m w with
  | (Returned a, w') => f a w'
  | (Thrown, w') => (Thrown, w')
  end.

Definition throw {A} : M A := λ w, (Thrown, w).

Definition get_actor : M (option Actor) := λ w, (Returned (this_actor w), w).

Definition get_isGM : M bool := λ w, (Returned (game_user_isGM w), w).

Definition notify (s : Severity) (key : string) : M unit := λ w,
  (Returned (),
   {| this_actor := this_actor w;
      game_user_isGM := game_user_isGM w;
      notifications := notifications w ++ [{| severity := s; message := key |}];
      renders := renders w |}).

Definition render : M unit := λ w,
  (Returned (),
   {| this_actor := this_actor w;
      game_user_isGM := game_user_isGM w;
      notifications := notifications w;
      renders := S (renders w) |}).

Definition with_items (f : list Item → list Item) (a : Actor) : Actor :=
  {| actor_name := actor_name a; actor_kind := actor_kind a;
     isOwner := isOwner a; ownership := ownership a;
     details_level := details_level a; items := f (items a) |}.

(** A document write on the items of [this.actor]. *)
Definition modify_items (f : list Item → list Item) : M unit := λ w,
  (Returned (),
   {| this_actor := with_items f <$> this_actor w;
      game_user_isGM := game_user_isGM w;
      notifications := notifications w;
      renders := renders w |}).

(** [actor.items.get(id)] *)
Definition items_get (a : Actor) (id : string) : option Item :=
  List.find (λ it, bool_decide (item_id it = id)) (items a).

(** [foundry.utils.getProperty(facility, prop)] on the occupant paths the
    slots of the sheet carry. *)
Definition getProperty (facility : Item) (prop : string) : option OccupantData :=
  if bool_decide (prop = "system.defenders") then sys_defenders facility
  else if bool_decide (prop = "system.hirelings") then sys_hirelings facility
  else if bool_decide (prop = "system.trade.creatures") then sys_creatures facility
  else None.

Definition with_value (od : option OccupantData) (newValue : list (option string))
    : option OccupantData :=
  Some {| od_value := Some newValue; od_max := od ≫= od_max |}.

Definition with_occupants (defenders hirelings creatures : option OccupantData)
    (it : Item) : Item :=
  {| item_id := item_id it; item_name := item_name it; item_type := item_type it;
     sys_type_value := sys_type_value it; sys_level := sys_level it;
     sys_free := sys_free it; sys_building := sys_building it;
     sys_disabled := sys_disabled it;
     sys_defenders := defenders; sys_hirelings := hirelings;
     sys_creatures := creatures |}.

(** The change [{ [`${prop}.value`]: newValue }] applied to a facility. *)
Definition set_value (prop : string) (newValue : list (option string))
    (it : Item) : Item :=
  if bool_decide (prop = "system.defenders") then
    with_occupants (with_value (sys_defenders it) newValue)
      (sys_hirelings it) (sys_creatures it) it
  else if bool_decide (prop = "system.hirelings") then
    with_occupants (sys_defenders it)
      (with_value (sys_hirelings it) newValue) (sys_creatures it) it
  else if bool_decide (prop = "system.trade.creatures") then
    with_occupants (sys_defenders it) (sys_hirelings it)
      (with_value (sys_creatures it) newValue) it
  else it.

(** [facility.update(...)] *)
Definition facility_update (facilityId prop : string)
    (newValue : list (option string)) : M unit :=
  modify_items
    (map (λ it, if bool_decide (item_id it = facilityId)
                then set_value prop newValue it else it)).

(** [this.actor.createEmbeddedDocuments('Item', [item.toObject()])] *)
Definition createEmbeddedDocuments (item : Item) : M unit :=
  modify_items (λ l, l ++ [item]).

Record DragData : Type := {
  d_type : option string;
  d_uuid : string
}.

(** What a handler reads of the drop event: the payload decoded by
    [TextEditor.getDragEventData] and the data attributes of the target. *)
Record DropEvent : Type := {
  drag_data : option DragData;
  facilityId : option string;
  prop : option string;
  facilityType : option string
}.

Definition _onDropActor (event : DropEvent) : M unit :=
  match drag_data event with
  | None => mret ()
  | Some data =>
    if negb (bool_decide (d_type data = Some "Actor")) then mret ()
    else if negb (Js.str_truthy (facilityId event))
            || negb (Js.str_truthy (prop event)) then mret ()
    else
      let facilityId := default "" (facilityId event) in
      let prop := default "" (prop event) in
      actor ← get_actor;
      match actor ≫= (λ a, items_get a facilityId) with
      | None => mret ()
      | Some facility =>
        let occupants := getProperty facility prop in
        let max := occupants ≫= od_max in
        let value := occupants ≫= od_value in
        if Js.int_or (Z.of_nat ∘ length <$> value) 0 >=? Js.int_or max 0 then
          notify warn "BASTION_MANAGER.Warnings.SlotFull"
        else
          let newValue := default [] value ++ [Some (d_uuid data)] in
          facility_update facilityId prop newValue;;
          render
      end
  end.

Section DropFacility.

(** The host's [fromUuid] on item uuids. *)
Variable fromUuid : string → option Item.

Definition _onDropFacility (event : DropEvent) : M unit :=
  actor ← get_actor;
  isGM ← get_isGM;
  if negb (default false (isOwner <$> actor)) && negb isGM then mret ()
  else
    match drag_data event with
    | None => mret ()
    | Some data =>
      if negb (bool_decide (d_type data = Some "Item")) then mret ()
      else if negb (Js.str_truthy (facilityType event)) then mret ()
      else
        let facilityType := default "" (facilityType event) in
        match fromUuid (d_uuid data) with
        | None => notify error "BASTION_MANAGER.Warnings.ItemNotFound"
        | Some item =>
          if negb (bool_decide (item_type item = "facility")) then
            notify warn "BASTION_MANAGER.Warnings.NotAFacility"
          else if negb (bool_decide (sys_type_value item = Some facilityType)) then
            notify warn "BASTION_MANAGER.Warnings.WrongFacilityType"
          else
            match actor with
            | None => throw
            | Some actor =>
              let actorLevel := Js.int_or (details_level actor) 0 in
              let facilityLevel := Js.int_or (sys_level item) 0 in
              if facilityLevel >? actorLevel then
                notify warn "BASTION_MANAGER.Warnings.LevelTooLow"
              else
                createEmbeddedDocuments item;;
                notify info "BASTION_MANAGER.Notifications.FacilityAdded";;
                render
            end
        end
    end.

End DropFacility.

(** What the click handlers read of their target: the data attributes of
    the enclosing elements; [t_index] is the result of [parseInt], [None]
    for [NaN]. *)
Record ClickTarget : Type := {
  t_facilityId : option string;
  t_prop : option string;
  t_index : option Z
}.

(** [currentValue.filter((_, i) => i !== index)] *)
Definition remove_index (index : Z) (currentValue : list (option string))
    : list (option string) :=
  snd <$> filter (λ p, Z.of_nat p.1 ≠ index) (imap pair currentValue).

Definition onDeleteOccupant (target : ClickTarget) : M unit :=
  if negb (Js.str_truthy (t_facilityId target))
     || negb (Js.str_truthy (t_prop target))
     || negb (bool_decide (is_Some (t_index target))) then mret ()
  else
    let facilityId := default "" (t_facilityId target) in
    let prop := default "" (t_prop target) in
    let index := default 0 (t_index target) in
    actor ← get_actor;
    match actor ≫= (λ a, items_get a facilityId) with
    | None => mret ()
    | Some facility =>
      let currentValue := default [] (getProperty facility prop ≫= od_value) in
      let newValue := remove_index index currentValue in
      facility_update facilityId prop newValue;;
      render
    end.

(** [facility.delete()] on the document that [items.get(id)] found. *)
Fixpoint delete_first (id : string) (l : list Item) : list Item :=
  match l with
  | [] => []
  | it :: rest =>
      if bool_decide (item_id it = id) then rest else it :: delete_first id rest
  end.

(** [confirmed] is what the confirmation dialog resolved to. *)
Definition onDeleteFacility (target : ClickTarget) (confirmed : bool) : M unit :=
  if negb (Js.str_truthy (t_facilityId target)) then mret ()
  else
    let facilityId := default "" (t_facilityId target) in
    actor ← get_actor;
    match actor ≫= (λ a, items_get a facilityId) with
    | None => mret ()
    | Some facility =>
      if confirmed then
        modify_items (delete_first facilityId);;
        notify info "BASTION_MANAGER.Notifications.FacilityDeleted";;
        render
      else mret ()
    end.

Section AddFacility.

(** The host's [fromUuid] on item uuids. *)
Variable fromUuid : string → option Item.

(** What the user picks in the compendium browser, which is opened on a
    facility type and a greatest level; [None] when nothing is picked. *)
Variable selectOne : string → option Z → option string.

(** [facilityType] is [target.dataset.facilityType].  The actor's [details]
    are taken to exist, so that reading the level for the browser's filter
    fails only when there is no actor. *)
Definition onAddFacility (facilityType : option string) : M unit :=
  let facilityType :=
    if Js.str_truthy facilityType then default "" facilityType else "basic" in
  actor ← get_actor;
  isGM ← get_isGM;
  if negb (default false (isOwner <$> actor)) && negb isGM then mret ()
  else
    match actor with
    | None => throw
    | Some actor =>
      let result := selectOne facilityType (details_level actor) in
      if Js.str_truthy result then
        match fromUuid (default "" result) with
        | Some item => createEmbeddedDocuments item;; render
        | None => mret ()
        end
      else mret ()
    end.

End AddFacility.

End BastionDetailEvents.

(** ** scripts/bastion-overview.mjs: the cards of the overview *)

Module BastionOverviewCards.

(** A card of the grid.  The name, image and colours it shows come from the
    display settings and are not used by any decision; they are left out. *)
Record Card : Type := {
  actorId : string;
  actorName : string;
  card_isOwner : bool;
  canEdit : bool;
  isPublic : bool;
  sharedWith : Z;
  basicCount : Z;
  basicMax : Z;
  specialCount : Z;
  specialMax : Z;
  totalFacilities : Z
}.

Section Cards.

(** [CONST.DOCUMENT_OWNERSHIP_LEVELS.OWNER] *)
Variable OWNER : Z.

(** [CONFIG.DND5E.facilities.advancement] *)
Variable advancement : Advancement.

(** The loop of [_isPlayerClaimed] over the entries of the ownership map. *)
Fixpoint claimed_loop (users : gmap string Manager.User)
    (entries : list (string * Z)) : bool :=
  match entries with
  | [] => false
  | (userId, level) :: rest =>
      if bool_decide (userId = "default") then claimed_loop users rest
      else
        match users !! userId with
        | Some user =>
            if negb (Manager.isGM user) && bool_decide (level = OWNER) then true
            else claimed_loop users rest
        | None => claimed_loop users rest
        end
  end.

(** The result does not depend on the order of the entries; they are taken
    in the order of the map. *)
Definition _isPlayerClaimed (game : Manager.Game) (actor : Actor) : bool :=
  claimed_loop (Manager.users game) (map_to_list (ownership actor)).

Definition make_card (game : Manager.Game) (id : string) (actor : Actor) : Card :=
  let visibility :=
    default {| Manager.vis_public := None; Manager.vis_users := None |}
      (Manager.visibilitySettings game ≫= λ settings, settings !! id) in
  let facilities := itemTypes_facility actor in
  let basicCount :=
    length (filter (λ f, sys_type_value f = Some "basic") facilities) in
  let specialCount :=
    length (filter (λ f, sys_type_value f = Some "special") facilities) in
  let overrides := Manager.getBuildingOverrides game id in
  let limits := BastionOverview.building_limits actor advancement overrides in
  {| actorId := id;
     actorName := actor_name actor;
     card_isOwner := isOwner actor;
     canEdit := isOwner actor || Manager.isGM (Manager.user game);
     isPublic := default false (Manager.vis_public visibility);
     sharedWith :=
       Js.int_or (Z.of_nat ∘ length <$> Manager.vis_users visibility) 0;
     basicCount := Z.of_nat basicCount;
     basicMax := limits.1;
     specialCount := Z.of_nat specialCount;
     specialMax := limits.2;
     totalFacilities := Z.of_nat (length facilities) |}.

(** The loop over the characters: one that the user cannot view is skipped,
    a card is pushed for every other. *)
Fixpoint cards_loop (game : Manager.Game) (characters : list (string * Actor))
    (bastions : list Card) : list Card :=
  match characters with
  | [] => bastions
  | (id, actor) :: rest =>
      if negb (Js.truthy (Manager.canViewBastion game id None))
      then cards_loop game rest bastions
      else cards_loop game rest (bastions ++ [make_card game id actor])
  end.

(** [game.actors] is taken in the order of the collection's map; an actor
    is stored under its id. *)
Definition _prepareBastionsContext (game : Manager.Game) : list Card :=
  let characters :=
    filter (λ e, actor_kind e.2 = "character"
                 ∧ _isPlayerClaimed game e.2 = true
                 ∧ Manager.isBastionEnabled game e.1 = true)
           (map_to_list (Manager.actors game)) in
  cards_loop game characters [].

(** The save callback of the manage dialog, behind the game-master guard of
    [onManageBastions]: a fresh mapping with one entry per claimed character
    replaces the stored one.  [checked] is the state of the checkbox of an
    actor, [None] when the form has none. *)
Definition manage_save (game : Manager.Game) (checked : string → option bool)
    : Manager.Game :=
  if negb (Manager.isGM (Manager.user game)) then game
  else
    let allCharacters :=
      filter (λ e, actor_kind e.2 = "character" ∧ _isPlayerClaimed game e.2 = true)
             (map_to_list (Manager.actors game)) in
    let enabledBastions :=
      foldl (λ (enabled : gmap string Js.value) e,
               <[e.1 := Js.boolean (default false (checked e.1))]> enabled)
            ∅ allCharacters in
    Manager.with_enabledBastions enabledBastions game.

End Cards.

End BastionOverviewCards.

(** ** scripts/bastion-overview.mjs: saving the settings dialog *)

Module BastionOverviewSettings.

(** What the save callback reads of the form.  A text is the trimmed value
    of its input, a number the result of [parseInt] ([None] for [NaN]), a
    flag the [checked] state of its box; each is [None] when the form has no
    such element.  [f_user] gives the box of a user id. *)
Record SettingsForm : Type := {
  f_bastionName : option string;
  f_bastionImage : option string;
  f_accentColor : option string;
  f_fadeAmount : option Z;
  f_disableFade : option bool;
  f_textColor : option string;
  f_textOutline : option bool;
  f_public : option bool;
  f_user : string → option bool;
  f_overrideBasic : option Z;
  f_overrideSpecial : option Z
}.

(** [text || fallback] *)
Definition text_or (text fallback : option string) : option string :=
  if Js.str_truthy text then text else fallback.

Definition newBastionData (form : SettingsForm) : Manager.BastionData :=
  {| Manager.bd_name := text_or (f_bastionName form) None;
     Manager.bd_image := text_or (f_bastionImage form) None;
     Manager.bd_accentColor := text_or (f_accentColor form) (Some "#2d2d2d");
     Manager.bd_fadeAmount := Some (Js.int_or (f_fadeAmount form) 70);
     Manager.bd_disableFade := Some (default false (f_disableFade form));
     Manager.bd_textColor := text_or (f_textColor form) (Some "#ffffff");
     Manager.bd_textOutline := Some (default false (f_textOutline form)) |}.

(** [game.users.filter(u => !u.isGM)], in the order of the collection's
    map. *)
Definition players (game : Manager.Game) : list Manager.User :=
  filter (λ u, Manager.isGM u = false) (snd <$> map_to_list (Manager.users game)).

Definition sharedUsers (game : Manager.Game) (form : SettingsForm) : list string :=
  Manager.user_id
  <$> filter (λ p, f_user form (Manager.user_id p) = Some true) (players game).

Section Save.

Variable mergeObject : Manager.BastionData → Manager.BastionData → Manager.BastionData.

(** The save callback of [_showSettingsDialog]. *)
Definition save_settings (store : Manager.Store) (actorId : string)
    (form : SettingsForm) : Manager.Store :=
  let store1 := Manager.setBastionData mergeObject store actorId (newBastionData form) in
  let game := Manager.store_game store1 in
  let isPublic := default false (f_public form) in
  let game2 :=
    Manager.setVisibility game actorId
      {| Manager.vis_public := Some isPublic;
         Manager.vis_users := Some (sharedUsers game form) |} in
  let game3 :=
    if Manager.isGM (Manager.user game2) then
      let overrideBasic := Js.int_or (f_overrideBasic form) 0 in
      let overrideSpecial := Js.int_or (f_overrideSpecial form) 0 in
      Manager.setBuildingOverrides game2 actorId
        {| ov_basic := Some overrideBasic; ov_special := Some overrideSpecial |}
    else game2 in
  {| Manager.store_game := game3; Manager.bastionData := Manager.bastionData store1 |}.

End Save.

End BastionOverviewSettings.

(** ** The specification's reading of the slot calculator *)

(** [k] is a key of [config]. *)
Definition has_key (config : LevelTable) (k : N) : Prop :=
  ∃ v, (k, v) ∈ config.

(** Every level key of the table is an array index. *)
Definition level_keys (config : LevelTable) : Prop :=
  ∀ k, has_key config k → array_index k.

(** [k] is the greatest key of [config] that is at most [level]. *)
Definition greatest_key_le (config : LevelTable) (level : Z) (k : N) : Prop :=
  has_key config k ∧ Z.of_N k ≤ level ∧
  ∀ k', has_key config k' → Z.of_N k' ≤ level → (k' ≤ k)%N.

(** lookup(table, greatest key ≤ level, default 0) *)
Definition table_value (config : LevelTable) (level : Z) (v : Z) : Prop :=
  (∃ k, greatest_key_le config level k ∧ (k, v) ∈ config)
  ∨ ((∀ k, has_key config k → level < Z.of_N k) ∧ v = 0).

(** The override of a category, 0 when none is stored. *)
Definition override_of (overrides : Overrides) (t : FacilityType) : Z :=
  default 0 (match t with
             | basic => ov_basic overrides
             | special => ov_special overrides
             end).

(** The level the calculator works with: the actor's level, and 1 when the
    actor has no level or level 0. *)
Definition effective_level (level : option Z) : Z :=
  match level with
  | Some 0 | None => 1
  | Some l => l
  end.

(** A table of cumulative slot counts: no count is negative and a higher
    level never has fewer slots. *)
Definition cumulative (config : LevelTable) : Prop :=
  ∀ k1 k2 v1 v2,
    (k1, v1) ∈ config → (k2, v2) ∈ config → (k1 ≤ k2)%N → 0 ≤ v1 ≤ v2.

(** An actor that has level [level] and the [items] given. *)
Definition actor_of (name kind : string) (owner : bool) (own : gmap string Z)
    (level : option Z) (its : list Item) : Actor :=
  {| actor_name := name; actor_kind := kind; isOwner := owner; ownership := own;
     details_level := level; items := its |}.

Definition limit_of (limits : Z * Z) (t : FacilityType) : Z :=
  match t with
  | basic => limits.1
  | special => limits.2
  end.

(** The category of a facility: special when its type says so, basic
    otherwise. *)
Definition is_special (it : Item) : Prop := sys_type_value it = Some "special".

Definition facilities_of (a : Actor) (t : FacilityType) : list Item :=
  match t with
  | basic => filter (λ it, ¬ is_special it) (itemTypes_facility a)
  | special => filter is_special (itemTypes_facility a)
  end.

Definition build_slot : BastionDetail.Available :=
  {| BastionDetail.label := "DND5E.FACILITY.AvailableFacility.basic.build" |}.

(** A free slot of the basic category. *)
Definition free_basic_slot : BastionDetail.Available :=
  {| BastionDetail.label := "DND5E.FACILITY.AvailableFacility.basic.free" |}.

(** ** The specification's reading of the occupancy builder *)

(** [{ value: refs, max: capacity }] *)
Definition occupant_data (refs : list (option string)) (capacity : Z)
    : option OccupantData :=
  Some {| od_value := Some refs; od_max := Some capacity |}.

(** The reference stored at index [i] of [refs], if any: a null entry, an
    empty string and an index past the end store none. *)
Definition stored_ref (refs : list (option string)) (i : nat) : option string :=
  match refs !! i with
  | Some (Some u) => if decide (u = "") then None else Some u
  | _ => None
  end.

(** ** The specification's reading of the visibility predicate *)

(** The user is known and has the privileged (GM) role. *)
Definition privileged (game : Manager.Game) (userId : string) : Prop :=
  ∃ u, Manager.users game !! userId = Some u ∧ Manager.isGM u = true.

(** The target actor exists and the host reports it as owned. *)
Definition owns_actor (game : Manager.Game) (actorId : string) : Prop :=
  ∃ a, Manager.actors game !! actorId = Some a ∧ isOwner a = true.

(** The given user holds the owner level on the target actor, as
    [_isPlayerClaimed] reads the ownership map of an actor. *)
Definition user_owns (OWNER : Z) (game : Manager.Game) (actorId userId : string)
    : Prop :=
  ∃ a, Manager.actors game !! actorId = Some a ∧ ownership a !! userId = Some OWNER.

(** The visibility settings stored for an actor. *)
Definition visibility_of (game : Manager.Game) (actorId : string)
    : option Manager.Visibility :=
  Manager.visibilitySettings game ≫= λ settings, settings !! actorId.

Definition marked_public (game : Manager.Game) (actorId : string) : Prop :=
  ∃ v, visibility_of game actorId = Some v ∧ Manager.vis_public v = Some true.

Definition lists_user (game : Manager.Game) (actorId userId : string) : Prop :=
  ∃ v listed, visibility_of game actorId = Some v
              ∧ Manager.vis_users v = Some listed ∧ userId ∈ listed.

(** The entry stored for an actor in the enabled-bastions mapping. *)
Definition enabled_entry (game : Manager.Game) (actorId : string) : option Js.value :=
  Manager.enabledBastions game ≫= λ enabled, enabled !! actorId.

(** ** The specification's reading of the drop handlers *)

Module E := BastionDetailEvents.

Definition notice (s : E.Severity) (key : string) : E.Notification :=
  {| E.severity := s; E.message := key |}.



(** A drop on an occupant slot that gets as far as the occupants of the
    facility: the payload is an actor and the slot names a facility of the
    actor and an occupant path. *)
Definition occupant_drop (w : E.World) (event : E.DropEvent) (data : E.DragData)
    (facility : Item) (path : string) : Prop :=
  E.drag_data event = Some data
  ∧ E.d_type data = Some "Actor"
  ∧ ∃ fid a,
      E.facilityId event = Some fid ∧ fid ≠ ""
      ∧ E.prop event = Some path ∧ path ≠ ""
      ∧ E.this_actor w = Some a
      ∧ E.items_get a fid = Some facility.

(** The occupant list at [path] is at its maximum. *)
Definition slots_full (facility : Item) (path : string) : Prop :=
  default 0 (E.getProperty facility path ≫= od_max)
  ≤ Z.of_nat (length (default [] (E.getProperty facility path ≫= od_value))).

(** ** Reading the occupant lists of the actor's facilities *)

(** The occupant list of a facility at an occupant path, empty when there is
    none. *)
Definition occupants_at (facility : Item) (path : string) : list (option string) :=
  default [] (E.getProperty facility path ≫= od_value).

(** The capacity of a facility at an occupant path, 0 when there is none. *)
Definition capacity_at (facility : Item) (path : string) : Z :=
  default 0 (E.getProperty facility path ≫= od_max).

(** A click on an occupant of a facility of the actor: the target names the
    facility, an occupant path and an index. *)
Definition occupant_click (w : E.World) (target : E.ClickTarget)
    (facility : Item) (fid path : string) (i : Z) : Prop :=
  E.t_facilityId target = Some fid ∧ fid ≠ ""
  ∧ E.t_prop target = Some path ∧ path ≠ ""
  ∧ E.t_index target = Some i
  ∧ ∃ a, E.this_actor w = Some a ∧ E.items_get a fid = Some facility.

(** No occupant list of the item is longer than its capacity. *)
Definition within_capacity (it : Item) : Prop :=
  ∀ path, Z.of_nat (length (occupants_at it path)) ≤ capacity_at it path.

(** The items of the view's actor, none when there is no actor. *)
Definition items_of (w : E.World) : list Item :=
  default [] (items <$> E.this_actor w).

(** The items of the view's actor have distinct ids and none of their
    occupant lists is longer than its capacity. *)
Definition well_kept (w : E.World) : Prop :=
  NoDup (item_id <$> items_of w) ∧ Forall within_capacity (items_of w).

(** ** Reading the overview *)

Module C := BastionOverviewCards.

(** Some user who is not a game master has the owner level on the actor. *)
Definition claimed_by_player (OWNER : Z) (game : Manager.Game) (a : Actor) : Prop :=
  ∃ userId user,
    ownership a !! userId = Some OWNER ∧ userId ≠ "default"
    ∧ Manager.users game !! userId = Some user ∧ Manager.isGM user = false.

(** The character actors that a player has claimed. *)
Definition claimed_character (OWNER : Z) (game : Manager.Game) (id : string)
    (a : Actor) : Prop :=
  Manager.actors game !! id = Some a
  ∧ actor_kind a = "character"
  ∧ claimed_by_player OWNER game a.

(** The current user may view the bastion of the actor. *)
Definition viewable (game : Manager.Game) (id : string) : Prop :=
  privileged game (Manager.user_id (Manager.user game))
  ∨ owns_actor game id
  ∨ marked_public game id
  ∨ lists_user game id (Manager.user_id (Manager.user game)).

Module Dlg := BastionOverviewSettings.

(** The text entered in an input: none when the form has no such input or
    the input is empty. *)
Definition entered (text : option string) : option string :=
  match text with
  | Some s => if decide (s = "") then None else Some s
  | None => None
  end.

(** The number entered in an input: none when the form has no such input,
    the input holds no number, or the number is 0. *)
Definition entered_number (n : option Z) : option Z :=
  match n with
  | Some v => if decide (v = 0) then None else Some v
  | None => None
  end.

(** ** Sample inputs *)

Module Sample.

Definition no_entity : string → option Entity := λ _, None.

Definition zero_overrides : Overrides :=
  {| ov_basic := Some 0; ov_special := Some 0 |}.

Definition hero (level : Z) : Actor :=
  actor_of "Hero" "character" true ∅ (Some level) [].

(** [{ basic: { 1: 2 }, special: {} }] *)
Definition first_level_table : Advancement :=
  {| adv_basic := [(1%N, 2)]; adv_special := [] |}.

(** [{ basic: { 1: 5, 3: 2 }, special: {} }] *)
Definition shrinking_table : Advancement :=
  {| adv_basic := [(1%N, 5); (3%N, 2)]; adv_special := [] |}.

(** [{ basic: { 1: 2, 5: 3 }, special: { 1: 0, 3: 1 } }] *)
Definition example_table : Advancement :=
  {| adv_basic := [(1%N, 2); (5%N, 3)];
     adv_special := [(1%N, 0); (3%N, 1)] |}.

(** [{ basic: 1, special: 0 }] *)
Definition example_overrides : Overrides :=
  {| ov_basic := Some 1; ov_special := Some 0 |}.

Definition empty_table : Advancement :=
  {| adv_basic := []; adv_special := [] |}.

(** [{ basic: { 4294967296: 7, 4294967295: 3 }, special: {} }]: neither key
    is an array index. *)
Definition wide_table : Advancement :=
  {| adv_basic := [(4294967296%N, 7); (4294967295%N, 3)]; adv_special := [] |}.

(** A world in which only ["uuid-A"] still resolves. *)
Definition only_A : string → option Entity := λ u,
  if decide (u = "uuid-A")
  then Some {| ent_name := "Aria"; ent_img := "aria.webp"; ent_uuid := "uuid-A" |}
  else None.

(** A table with a game master, a player, and one actor that nobody at this
    client owns and that has no visibility entry; the enabled-bastions
    mapping holds [null] for it. *)
Definition table_game : Manager.Game :=
  {| Manager.user := {| Manager.user_id := "player"; Manager.isGM := false |};
     Manager.users :=
       {[ "gm" := {| Manager.user_id := "gm"; Manager.isGM := true |};
          "player" := {| Manager.user_id := "player"; Manager.isGM := false |} ]};
     Manager.actors := {[ "hero" := actor_of "Hero" "character" false ∅ (Some 3) [] ]};
     Manager.buildingOverrides := None;
     Manager.visibilitySettings := None;
     Manager.enabledBastions := Some {[ "hero" := Js.null ]} |}.

Definition smithy : Item :=
  {| item_id := "f1"; item_name := "Smithy"; item_type := "facility";
     sys_type_value := Some "special"; sys_level := Some 5;
     sys_free := false; sys_building := false; sys_disabled := false;
     sys_defenders := Some {| od_value := Some [Some "uuid-A"]; od_max := Some 1 |};
     sys_hirelings := None; sys_creatures := None |}.

Definition sword : Item :=
  {| item_id := "w1"; item_name := "Sword"; item_type := "weapon";
     sys_type_value := None; sys_level := None;
     sys_free := false; sys_building := false; sys_disabled := false;
     sys_defenders := None; sys_hirelings := None; sys_creatures := None |}.

(** A level 3 character who owns a smithy with its one defender slot taken. *)
Definition keeper : Actor :=
  actor_of "Hero" "character" true ∅ (Some 3) [smithy].

Definition detail_view : E.World :=
  {| E.this_actor := Some keeper; E.game_user_isGM := false;
     E.notifications := []; E.renders := 0 |}.


Definition actor_payload : E.DragData :=
  {| E.d_type := Some "Actor"; E.d_uuid := "uuid-B" |}.




Definition finds (it : Item) : string → option Item := λ _, Some it.

Definition game_master : Manager.User :=
  {| Manager.user_id := "gm"; Manager.isGM := true |}.

Definition player : Manager.User :=
  {| Manager.user_id := "player"; Manager.isGM := false |}.

(** The hero is a character whose owner level (3) is held by the player;
    the client is the game master's or the player's. *)
Definition claimed_game (me : Manager.User) : Manager.Game :=
  {| Manager.user := me;
     Manager.users := {[ "gm" := game_master; "player" := player ]};
     Manager.actors :=
       {[ "hero" := actor_of "Hero" "character" false {[ "player" := 3 ]} (Some 3) [] ]};
     Manager.buildingOverrides := None;
     Manager.visibilitySettings := None;
     Manager.enabledBastions := Some {[ "hero" := Js.boolean false ]} |}.

Definition session (me : Manager.User) : Manager.Session :=
  {| Manager.game := claimed_game me;
     Manager.overview_rendered := true;
     Manager.overview_renders := 0 |}.

Definition all_checked : string → option bool := λ _, Some true.

(** A barracks with one of its two defender slots taken. *)
Definition barracks : Item :=
  {| item_id := "f2"; item_name := "Barracks"; item_type := "facility";
     sys_type_value := Some "basic"; sys_level := Some 1;
     sys_free := false; sys_building := false; sys_disabled := false;
     sys_defenders := Some {| od_value := Some [Some "uuid-A"]; od_max := Some 2 |};
     sys_hirelings := None; sys_creatures := None |}.

Definition warden : Actor :=
  actor_of "Warden" "character" true ∅ (Some 5) [barracks].

Definition warden_view : E.World :=
  {| E.this_actor := Some warden; E.game_user_isGM := false;
     E.notifications := []; E.renders := 0 |}.

Definition drop_on_barracks : E.DropEvent :=
  {| E.drag_data := Some actor_payload; E.facilityId := Some "f2";
     E.prop := Some "system.defenders"; E.facilityType := None |}.

Definition first_defender : E.ClickTarget :=
  {| E.t_facilityId := Some "f2"; E.t_prop := Some "system.defenders";
     E.t_index := Some 0 |}.

(** A user who is no game master and holds no level on the hero. *)
Definition guest : Manager.User :=
  {| Manager.user_id := "guest"; Manager.isGM := false |}.

(** The owner level (3) on the hero is held by the player and by nobody
    else; [mine] is the host's [isOwner] flag of the hero at the client of
    [me].  The hero has no visibility entry. *)
Definition owned_game (me : Manager.User) (mine : bool) : Manager.Game :=
  {| Manager.user := me;
     Manager.users := {[ "gm" := game_master; "player" := player; "guest" := guest ]};
     Manager.actors :=
       {[ "hero" := actor_of "Hero" "character" mine {[ "player" := 3 ]} (Some 3) [] ]};
     Manager.buildingOverrides := None;
     Manager.visibilitySettings := None;
     Manager.enabledBastions := None |}.


(** A level 5 character with a barracks and a smithy. *)
Definition garrison : Actor :=
  actor_of "Warden" "character" true ∅ (Some 5) [barracks; smithy].

Definition garrison_view : E.World :=
  {| E.this_actor := Some garrison; E.game_user_isGM := false;
     E.notifications := []; E.renders := 0 |}.

(** A compendium browser in which the user picks the given uuid. *)
Definition picks (uuid : string) : string → option Z → option string :=
  λ _ _, Some uuid.

Definition takes_new : Manager.BastionData → Manager.BastionData → Manager.BastionData :=
  λ _ new, new.

Definition store (me : Manager.User) : Manager.Store :=
  {| Manager.store_game := claimed_game me; Manager.bastionData := None |}.

(** A form that shares the bastion with every user and asks for one extra
    special slot; the fade input holds 0. *)
Definition form : Dlg.SettingsForm :=
  {| Dlg.f_bastionName := Some "Keep"; Dlg.f_bastionImage := Some "";
     Dlg.f_accentColor := None; Dlg.f_fadeAmount := Some 0;
     Dlg.f_disableFade := None; Dlg.f_textColor := Some "#000000";
     Dlg.f_textOutline := Some true; Dlg.f_public := Some false;
     Dlg.f_user := all_checked;
     Dlg.f_overrideBasic := None; Dlg.f_overrideSpecial := Some 1 |}.

End Sample.

(** ** The level lookup *)

#[local] Instance key_le_trans : Transitive key_le.
Proof. intros a b c; unfold key_le; lia. Qed.

#[local] Instance key_le_total : Total key_le.
Proof. intros a b; unfold key_le; lia. Qed.

(** The enumeration holds the properties of the object, each once. *)
Lemma Object_entries_Permutation (config : LevelTable) :
  Object_entries config ≡ₚ config.
Proof.
  unfold Object_entries. rewrite merge_sort_Permutation.
  induction config as [|e config IH]; [done|].
  rewrite !filter_cons. destruct (decide (array_index e.1)) as [Hi|Hi].
  - rewrite decide_False by tauto. simpl. by rewrite IH.
  - rewrite decide_True by done. rewrite <- Permutation_middle. by rewrite IH.
Qed.

Lemma elem_of_Object_entries (config : LevelTable) e :
  e ∈ Object_entries config ↔ e ∈ config.
Proof. by rewrite Object_entries_Permutation. Qed.

(** A table whose keys are all array indices is enumerated in ascending
    order of its keys. *)
Lemma Object_entries_level_keys (config : LevelTable) :
  level_keys config → Object_entries config = merge_sort key_le config.
Proof.
  intros Hk. unfold Object_entries.
  assert (∀ e, e ∈ config → array_index e.1) as Hall.
  { intros [k v] He. apply Hk. by exists v. }
  clear Hk.
  assert (filter (λ e : N * Z, array_index e.1) config = config) as ->.
  { induction config as [|e config IH]; [done|].
    rewrite filter_cons, decide_True by (apply Hall; by left).
    f_equal. apply IH. intros x Hx. apply Hall. by right. }
  assert (filter (λ e : N * Z, ¬ array_index e.1) config = []) as ->.
  { induction config as [|e config IH]; [done|].
    rewrite filter_cons, decide_False.
    - apply IH. intros x Hx. apply Hall. by right.
    - intros Hn. apply Hn, Hall. by left. }
  apply app_nil_r.
Qed.

Lemma Object_entries_sorted (config : LevelTable) :
  level_keys config → StronglySorted key_le (Object_entries config).
Proof.
  intros Hk. rewrite Object_entries_level_keys by done.
  apply StronglySorted_merge_sort; apply _.
Qed.

Section FindLast.

Context {A : Type} (p : A → bool).

Lemma find_snoc (l : list A) x :
  List.find p (l ++ [x]) =
  match List.find p l with
  | Some y => Some y
  | None => if p x then Some x else None
  end.
Proof.
  induction l as [|a l IH]; simpl; [done|].
  destruct (p a); [done|apply IH].
Qed.

Lemma find_None_all (l : list A) :
  List.find p l = None → ∀ x, x ∈ l → p x = false.
Proof.
  induction l as [|a l IH]; simpl; intros Hf x Hx.
  - by apply elem_of_nil in Hx.
  - destruct (p a) eqn:Hp; [done|].
    apply elem_of_cons in Hx as [->|Hx]; [done|by apply IH].
Qed.

(** In a sorted list, the first hit from the end is above every other hit. *)
Lemma find_reverse_sorted (R : relation A) `{!Reflexive R} (l : list A) y :
  StronglySorted R l →
  List.find p (reverse l) = Some y →
  y ∈ l ∧ p y = true ∧ ∀ x, x ∈ l → p x = true → R x y.
Proof.
  induction l as [|a l IH]; intros Hs; [done|].
  apply StronglySorted_cons in Hs as [Ha Hs].
  rewrite reverse_cons, find_snoc.
  destruct (List.find p (reverse l)) as [z|] eqn:Hz.
  - intros [= ->]. destruct (IH Hs eq_refl) as (Hin & Hp & Hmax).
    split_and!; [by right|done|].
    intros x Hx Hpx. apply elem_of_cons in Hx as [->|Hx]; [|by apply Hmax].
    rewrite Forall_forall in Ha. by apply Ha.
  - destruct (p a) eqn:Hp; [|done]. intros [= ->].
    split_and!; [by left|done|].
    intros x Hx Hpx. apply elem_of_cons in Hx as [->|Hx]; [done|].
    assert (p x = false) as Hn; [|congruence].
    eapply find_None_all; [exact Hz|]. by apply elem_of_reverse.
Qed.

Lemma find_reverse_None (l : list A) :
  List.find p (reverse l) = None → ∀ x, x ∈ l → p x = false.
Proof.
  intros Hf x Hx. eapply find_None_all; [exact Hf|]. by apply elem_of_reverse.
Qed.

End FindLast.

#[local] Instance key_le_refl : Reflexive key_le.
Proof. intros a; unfold key_le; lia. Qed.

Lemma find_level_Some (config : LevelTable) level k v :
  level_keys config →
  find_level config level = Some (k, v) →
  greatest_key_le config level k ∧ (k, v) ∈ config.
Proof.
  intros Hkeys Hf. unfold find_level in Hf.
  apply (find_reverse_sorted _ key_le) in Hf as (Hin & Hp & Hmax);
    [|by apply Object_entries_sorted].
  rewrite elem_of_Object_entries in Hin.
  apply bool_decide_eq_true in Hp; simpl in Hp.
  split; [|done]. split_and!; [by eexists|done|].
  intros k' [v' Hk'] Hle.
  apply (Hmax (k', v')); [by rewrite elem_of_Object_entries|].
  by apply bool_decide_eq_true.
Qed.

Lemma find_level_None (config : LevelTable) level :
  find_level config level = None →
  ∀ k, has_key config k → level < Z.of_N k.
Proof.
  intros Hf k [v Hk]. unfold find_level in Hf.
  rewrite <- elem_of_Object_entries in Hk.
  apply (find_reverse_None _ _ Hf) in Hk.
  apply bool_decide_eq_false in Hk; simpl in Hk. lia.
Qed.

Lemma int_or_Some_0 (v : Z) : Js.int_or (Some v) 0 = v.
Proof. unfold Js.int_or. destruct (Z.eqb_spec v 0); congruence. Qed.

Lemma int_or_default_0 (o : option Z) : Js.int_or o 0 = default 0 o.
Proof. destruct o; [apply int_or_Some_0|done]. Qed.

Lemma int_or_effective_level (level : option Z) :
  Js.int_or level 1 = effective_level level.
Proof. by destruct level as [[| |]|]. Qed.

(** [baseAvailable || 0] is the table value of the level. *)
Lemma base_available_spec (config : LevelTable) level :
  level_keys config →
  table_value config level (Js.int_or (snd <$> find_level config level) 0).
Proof.
  intros Hkeys.
  destruct (find_level config level) as [[k v]|] eqn:Hf.
  - change (snd <$> Some (k, v)) with (Some v).
    rewrite int_or_Some_0. left. exists k. by apply find_level_Some.
  - right. split; [|done]. by apply find_level_None.
Qed.

(** Over any enumeration, the first entry found for a higher level comes no
    later than the one found for a lower level. *)
Lemma find_mono (entries : list (N * Z)) (l1 l2 : Z) :
  (∀ k1 k2 v1 v2,
     (k1, v1) ∈ entries → (k2, v2) ∈ entries → (k1 ≤ k2)%N → 0 ≤ v1 ≤ v2) →
  l1 ≤ l2 →
  Js.int_or (snd <$> List.find (λ e, bool_decide (Z.of_N e.1 ≤ l1)) entries) 0
  ≤ Js.int_or (snd <$> List.find (λ e, bool_decide (Z.of_N e.1 ≤ l2)) entries) 0.
Proof.
  intros Hc Hl. induction entries as [|[k v] entries IH]; [done|].
  assert (∀ k1 k2 v1 v2, (k1, v1) ∈ entries → (k2, v2) ∈ entries →
                         (k1 ≤ k2)%N → 0 ≤ v1 ≤ v2) as Hc'.
  { intros k1 k2 v1 v2 H1 H2. apply Hc; by right. }
  specialize (IH Hc'). cbn [List.find fst].
  destruct (bool_decide_reflect (Z.of_N k ≤ l1)) as [H1|H1].
  - rewrite bool_decide_true by lia. done.
  - destruct (bool_decide_reflect (Z.of_N k ≤ l2)) as [H2|H2]; [|exact IH].
    change (snd <$> Some (k, v)) with (Some v). rewrite int_or_Some_0.
    destruct (List.find _ entries) as [[k' v']|] eqn:Hf.
    + change (snd <$> Some (k', v')) with (Some v'). rewrite int_or_Some_0.
      apply find_some in Hf as [Hin Hp].
      apply bool_decide_eq_true in Hp; simpl in Hp.
      apply list_elem_of_In in Hin.
      refine (proj2 (Hc k' k v' v _ _ _)); [by right|by left|lia].
    + refine (proj1 (Hc k k v v _ _ _)); [by left|by left|lia].
Qed.

(** [baseAvailable || 0] does not decrease with the level when the slot
    counts of the table are cumulative. *)
Lemma find_level_mono (config : LevelTable) (l1 l2 : Z) :
  cumulative config → l1 ≤ l2 →
  Js.int_or (snd <$> find_level config l1) 0
  ≤ Js.int_or (snd <$> find_level config l2) 0.
Proof.
  intros Hc Hl. unfold find_level. apply find_mono; [|done].
  intros k1 k2 v1 v2 H1 H2.
  rewrite elem_of_reverse, elem_of_Object_entries in H1.
  rewrite elem_of_reverse, elem_of_Object_entries in H2.
  by apply Hc.
Qed.

(** ** The slot calculator *)

Import BastionDetail.

Lemma ensure_build_slot_fields (s : Slots) :
  max (ensure_build_slot s) = max s ∧
  value (ensure_build_slot s) = value s ∧
  override (ensure_build_slot s) = override s ∧
  chosen (ensure_build_slot s) = chosen s.
Proof. unfold ensure_build_slot. by case_bool_decide. Qed.

Lemma override_for (t : FacilityType) (overrides : Overrides) :
  match t with
  | basic => Js.int_or (ov_basic overrides) 0
  | special => Js.int_or (ov_special overrides) 0
  end = override_of overrides t.
Proof. destruct t; apply int_or_default_0. Qed.

(** The [max] and [override] that [_prepareFacilitiesContext] stores for a
    type are those of the loop body run on that type. *)
Lemma prepared_max fromUuid (a : Actor) advancement overrides t :
  max (slots_of (_prepareFacilitiesContext fromUuid (Some a) advancement overrides) t)
  = Some (Js.int_or (snd <$> find_level (adv_config advancement t)
                                        (Js.int_or (details_level a) 1)) 0
          + override_of overrides t)
  ∧ override (slots_of (_prepareFacilitiesContext fromUuid (Some a) advancement overrides) t)
    = Some (override_of overrides t).
Proof.
  destruct t; cbn [_prepareFacilitiesContext slots_of f_basic f_special].
  - destruct (ensure_build_slot_fields
      (slots_for basic (adv_config advancement basic) (Js.int_or (details_level a) 1)
         overrides (choose fromUuid (itemTypes_facility a) ([], [])).1))
      as (-> & _ & -> & _).
    cbn [slots_for max override]. by rewrite <- (override_for basic).
  - cbn [slots_for max override]. by rewrite <- (override_for special).
Qed.

Lemma building_limits_eq (a : Actor) advancement overrides t :
  limit_of (BastionOverview.building_limits a advancement overrides) t
  = Js.int_or (snd <$> find_level (adv_config advancement t)
                                  (Js.int_or (details_level a) 1)) 0
    + override_of overrides t.
Proof.
  unfold BastionOverview.building_limits, advancement_entries.
  destruct t; cbn; by rewrite <- int_or_default_0.
Qed.

(** Membership in a table that is written out. *)
Ltac entry_cases H :=
  repeat (apply elem_of_cons in H as [H|H]; [simplify_eq|]);
  try (apply elem_of_nil in H; destruct H).

(** C1, as amended: for every category, actor, overrides and advancement
    table whose level keys are array indices (below 2^32 - 1), the slot
    maximum [max] computed by the detail view, and the limit computed by the
    overview, is the table value at the greatest level key that is at most
    the actor's effective level (0 when there is no such key) plus the
    category's override; the effective level is the actor's level, and 1
    when the actor has no level or level 0. *)
Theorem max_is_table_value_plus_override
    fromUuid (a : Actor) advancement overrides (t : FacilityType) :
  level_keys (adv_config advancement t) →
  ∃ v,
    table_value (adv_config advancement t) (effective_level (details_level a)) v
    ∧ max (slots_of (_prepareFacilitiesContext fromUuid (Some a) advancement overrides) t)
      = Some (v + override_of overrides t)
    ∧ override (slots_of (_prepareFacilitiesContext fromUuid (Some a) advancement overrides) t)
      = Some (override_of overrides t)
    ∧ limit_of (BastionOverview.building_limits a advancement overrides) t
      = v + override_of overrides t.
Proof.
  intros Hkeys. eexists. split_and!.
  - rewrite <- int_or_effective_level. by apply base_available_spec.
  - apply prepared_max.
  - apply prepared_max.
  - apply building_limits_eq.
Qed.

Lemma example_table_level_keys (t : FacilityType) :
  level_keys (adv_config Sample.example_table t).
Proof.
  intros k [v Hk]. unfold array_index.
  destruct t; cbn in Hk; entry_cases Hk; lia.
Defined.

(** C1 at the table [{ basic: { 1: 2, 5: 3 }, special: { 1: 0, 3: 1 } }],
    level 4 and the overrides [{ basic: 1, special: 0 }]. *)
Lemma max_is_table_value_plus_override_witness :
  level_keys (adv_config Sample.example_table basic)
  ∧ ∃ v,
      table_value (adv_config Sample.example_table basic)
        (effective_level (details_level (Sample.hero 4))) v
      ∧ max (slots_of (_prepareFacilitiesContext Sample.no_entity
               (Some (Sample.hero 4)) Sample.example_table Sample.example_overrides) basic)
        = Some (v + override_of Sample.example_overrides basic)
      ∧ override (slots_of (_prepareFacilitiesContext Sample.no_entity
                    (Some (Sample.hero 4)) Sample.example_table
                    Sample.example_overrides) basic)
        = Some (override_of Sample.example_overrides basic)
      ∧ limit_of (BastionOverview.building_limits (Sample.hero 4)
                    Sample.example_table Sample.example_overrides) basic
        = v + override_of Sample.example_overrides basic.
Proof.
  split; [exact (example_table_level_keys basic)|].
  exact (max_is_table_value_plus_override Sample.no_entity (Sample.hero 4)
           Sample.example_table Sample.example_overrides basic
           (example_table_level_keys basic)).
Defined.

(** C1 as stated fails at two inputs.  For an actor of level 0, with the
    table [{ basic: { 1: 2 } }] and no override, the greatest key at most 0
    does not exist, so the stated maximum is 0, and the code computes 2.
    For level keys that are not array indices, with the table
    [{ basic: { 4294967296: 7, 4294967295: 3 } }] at level 4294967296 the
    greatest key at most the level has the value 7, and the code, which
    meets the keys in the order of their creation, computes 3. *)
Lemma max_differs_at_level_zero_and_past_array_indices :
  (max (slots_of (_prepareFacilitiesContext Sample.no_entity
          (Some (Sample.hero 0)) Sample.first_level_table Sample.zero_overrides) basic)
   = Some 2
   ∧ ¬ ∃ v,
       table_value (adv_config Sample.first_level_table basic) 0 v
       ∧ max (slots_of (_prepareFacilitiesContext Sample.no_entity
                (Some (Sample.hero 0)) Sample.first_level_table Sample.zero_overrides) basic)
         = Some (v + override_of Sample.zero_overrides basic))
  ∧ (max (slots_of (_prepareFacilitiesContext Sample.no_entity
            (Some (Sample.hero 4294967296)) Sample.wide_table Sample.zero_overrides) basic)
     = Some 3
     ∧ ¬ ∃ v,
         table_value (adv_config Sample.wide_table basic) 4294967296 v
         ∧ max (slots_of (_prepareFacilitiesContext Sample.no_entity
                  (Some (Sample.hero 4294967296)) Sample.wide_table
                  Sample.zero_overrides) basic)
           = Some (v + override_of Sample.zero_overrides basic)).
Proof.
  split.
  - assert (max (slots_of (_prepareFacilitiesContext Sample.no_entity
              (Some (Sample.hero 0)) Sample.first_level_table Sample.zero_overrides) basic)
            = Some 2) as Hmax by (vm_compute; reflexivity).
    split; [exact Hmax|].
    intros (v & Hv & Hm). rewrite Hmax in Hm.
    assert (v = 0) as ->.
    { destruct Hv as [(k & ([x Hx] & Hle & _) & _)|[_ ->]]; [|done].
      cbn in Hx. entry_cases Hx. lia. }
    discriminate Hm.
  - assert (max (slots_of (_prepareFacilitiesContext Sample.no_entity
              (Some (Sample.hero 4294967296)) Sample.wide_table
              Sample.zero_overrides) basic)
            = Some 3) as Hmax by (vm_compute; reflexivity).
    split; [exact Hmax|].
    intros (v & Hv & Hm). rewrite Hmax in Hm.
    assert (v = 7) as ->.
    { destruct Hv as [(k & (_ & _ & Hgreatest) & Hv)|[Hnone _]].
      - assert (4294967296 ≤ k)%N as Hk.
        { apply Hgreatest; [|lia]. exists 7. cbn. by left. }
        cbn in Hv. entry_cases Hv; first [done|lia].
      - assert (has_key (adv_config Sample.wide_table basic) 4294967296%N) as Hkey
          by (exists 7; cbn; by left).
        specialize (Hnone _ Hkey). lia. }
    discriminate Hm.
Qed.

(** C7, as amended: with the table
    [{ basic: { 1: 2, 5: 3 }, special: { 1: 0, 3: 1 } }], an actor of level 4
    and the overrides [{ basic: 1, special: 0 }], the maxima are
    basic 2 + 1 = 3 and special 1 + 0 = 1, whatever the actor owns. *)
Theorem example_maxima fromUuid name kind owner own its :
  let f := _prepareFacilitiesContext fromUuid
             (Some (actor_of name kind owner own (Some 4) its))
             Sample.example_table Sample.example_overrides in
  max (f_basic f) = Some 3 ∧ max (f_special f) = Some 1.
Proof.
  intros f. subst f.
  destruct (prepared_max fromUuid (actor_of name kind owner own (Some 4) its)
              Sample.example_table Sample.example_overrides basic) as [Hb _].
  destruct (prepared_max fromUuid (actor_of name kind owner own (Some 4) its)
              Sample.example_table Sample.example_overrides special) as [Hs _].
  cbn [slots_of] in Hb, Hs. rewrite Hb, Hs.
  split; vm_compute; reflexivity.
Qed.

(** C7 as stated fails: at level 4 the greatest special key is 3, whose
    value is 1, so the special maximum is 1 and not 0. *)
Lemma example_special_max_is_not_zero :
  max (f_special (_prepareFacilitiesContext Sample.no_entity (Some (Sample.hero 4))
                    Sample.example_table Sample.example_overrides)) = Some 1
  ∧ max (f_special (_prepareFacilitiesContext Sample.no_entity (Some (Sample.hero 4))
                      Sample.example_table Sample.example_overrides)) ≠ Some 0.
Proof. split; [vm_compute; reflexivity|vm_compute; discriminate]. Qed.

Lemma effective_level_mono (l1 l2 : Z) :
  l1 ≤ l2 → effective_level (Some l1) ≤ effective_level (Some l2).
Proof. destruct l1, l2; simpl; lia. Qed.

Lemma available_length_slots_for t config level overrides cs :
  length (available (slots_for t config level overrides cs))
  = Z.to_nat (Z.max 0
      (Js.int_or (snd <$> find_level config level) 0 + override_of overrides t
       - Z.of_nat (length (filter
           (λ f, bool_decide (t = basic) || negb (free f) = true) cs)))).
Proof.
  cbn [slots_for available]. rewrite length_replicate.
  by rewrite (override_for t).
Qed.

Lemma available_length_ensure (s : Slots) :
  length (available (ensure_build_slot s)) = Nat.max 1 (length (available s)).
Proof.
  unfold ensure_build_slot. case_bool_decide as H; cbn [available].
  - rewrite length_app, H. reflexivity.
  - lia.
Qed.

(** C6, as amended: for a table of cumulative slot counts (no count negative,
    no count lower than the count of a lower level), a category and fixed
    overrides and facilities, the computed [max] and the number of available
    slots do not decrease when the level grows. *)
Theorem slots_monotone_in_level
    fromUuid name kind owner own its advancement overrides (t : FacilityType)
    (l1 l2 : Z) :
  cumulative (adv_config advancement t) →
  l1 ≤ l2 →
  let at_level l :=
    slots_of (_prepareFacilitiesContext fromUuid
                (Some (actor_of name kind owner own (Some l) its))
                advancement overrides) t in
  ∃ m1 m2,
    max (at_level l1) = Some m1 ∧ max (at_level l2) = Some m2 ∧ m1 ≤ m2
    ∧ (length (available (at_level l1)) ≤ length (available (at_level l2)))%nat.
Proof.
  intros Hc Hl at_level.
  assert (Js.int_or (Some l1) 1 ≤ Js.int_or (Some l2) 1) as Hlv
    by (rewrite !int_or_effective_level; by apply effective_level_mono).
  pose proof (find_level_mono (adv_config advancement t) _ _ Hc Hlv) as Hv.
  subst at_level.
  destruct (prepared_max fromUuid (actor_of name kind owner own (Some l1) its)
              advancement overrides t) as [Hm1 _].
  destruct (prepared_max fromUuid (actor_of name kind owner own (Some l2) its)
              advancement overrides t) as [Hm2 _].
  cbn [details_level actor_of] in Hm1, Hm2.
  eexists _, _. split_and!; [exact Hm1|exact Hm2|lia|].
  - clear Hm1 Hm2.
    destruct t; cbn [_prepareFacilitiesContext slots_of f_basic f_special];
      rewrite ?available_length_ensure, !available_length_slots_for;
      unfold itemTypes_facility, actor_of; cbn [details_level items]; lia.
Qed.

Lemma example_table_cumulative (t : FacilityType) :
  cumulative (adv_config Sample.example_table t).
Proof.
  intros k1 k2 v1 v2 H1 H2 Hk.
  destruct t; cbn in H1, H2; entry_cases H1; entry_cases H2; lia.
Defined.

(** C6 at the table [{ basic: { 1: 2, 5: 3 }, special: { 1: 0, 3: 1 } }],
    whose counts are cumulative, between levels 4 and 5, where the basic
    count grows from 2 to 3. *)
Lemma slots_monotone_in_level_witness :
  cumulative (adv_config Sample.example_table basic)
  ∧ 4 ≤ 5
  ∧ ∃ m1 m2,
      max (slots_of (_prepareFacilitiesContext Sample.no_entity (Some (Sample.hero 4))
             Sample.example_table Sample.zero_overrides) basic) = Some m1
      ∧ max (slots_of (_prepareFacilitiesContext Sample.no_entity (Some (Sample.hero 5))
               Sample.example_table Sample.zero_overrides) basic) = Some m2
      ∧ m1 ≤ m2
      ∧ (length (available (slots_of (_prepareFacilitiesContext Sample.no_entity
            (Some (Sample.hero 4)) Sample.example_table Sample.zero_overrides) basic))
         ≤ length (available (slots_of (_prepareFacilitiesContext Sample.no_entity
            (Some (Sample.hero 5)) Sample.example_table Sample.zero_overrides) basic)))%nat.
Proof.
  split; [exact (example_table_cumulative basic)|].
  split; [lia|].
  refine (slots_monotone_in_level Sample.no_entity "Hero" "character" true ∅ []
           Sample.example_table Sample.zero_overrides basic 4 5 _ _).
  - exact (example_table_cumulative basic).
  - lia.
Defined.

(** C6 as stated fails for a table that is not cumulative: with
    [{ basic: { 1: 5, 3: 2 } }] the maximum is 5 at level 1 and 2 at
    level 3. *)
Lemma shrinking_table_is_not_monotone :
  max (f_basic (_prepareFacilitiesContext Sample.no_entity (Some (Sample.hero 1))
                  Sample.shrinking_table Sample.zero_overrides)) = Some 5
  ∧ max (f_basic (_prepareFacilitiesContext Sample.no_entity (Some (Sample.hero 3))
                    Sample.shrinking_table Sample.zero_overrides)) = Some 2
  ∧ length (available (f_basic (_prepareFacilitiesContext Sample.no_entity
              (Some (Sample.hero 1)) Sample.shrinking_table Sample.zero_overrides))) = 5%nat
  ∧ length (available (f_basic (_prepareFacilitiesContext Sample.no_entity
              (Some (Sample.hero 3)) Sample.shrinking_table Sample.zero_overrides))) = 2%nat
  ∧ 1 ≤ 3 ∧ ¬ 5 ≤ 2.
Proof. split_and!; try (vm_compute; reflexivity); lia. Qed.

Lemma slots_for_remaining t config level overrides cs m v :
  max (slots_for t config level overrides cs) = Some m →
  value (slots_for t config level overrides cs) = Some v →
  length (available (slots_for t config level overrides cs))
  = Z.to_nat (Z.max 0 (m - v)).
Proof.
  cbn [slots_for max value available]. intros [= <-] [= <-].
  by rewrite length_replicate.
Qed.

(** C4: for every actor, advancement table and overrides the [available]
    array of the basic category has at least one entry; when [max - value]
    is 0 or less, so in particular when both are 0, it holds the build slot
    and nothing else. *)
Theorem basic_always_has_a_slot fromUuid (a : Actor) advancement overrides :
  let s := f_basic (_prepareFacilitiesContext fromUuid (Some a) advancement overrides) in
  (1 ≤ length (available s))%nat
  ∧ ∀ m v, max s = Some m → value s = Some v → m - v ≤ 0 →
           available s = [build_slot].
Proof.
  intros s. subst s. cbn [_prepareFacilitiesContext f_basic]. split.
  - rewrite available_length_ensure. lia.
  - intros m v Hm Hv Hle.
    match type of Hm with max (ensure_build_slot ?x) = _ => set (s := x) in * end.
    destruct (ensure_build_slot_fields s) as (Em & Ev & _).
    rewrite Em in Hm. rewrite Ev in Hv.
    assert (available s = []) as Hnil.
    { apply length_zero_iff_nil. subst s.
      rewrite (slots_for_remaining _ _ _ _ _ m v Hm Hv). lia. }
    unfold ensure_build_slot. rewrite Hnil. reflexivity.
Qed.

(** An actor of level 1 with no facility, the empty table and no override:
    [max] and [value] are 0 and the one available slot is the build slot. *)
Lemma basic_always_has_a_slot_witness :
  available (f_basic (_prepareFacilitiesContext Sample.no_entity (Some (Sample.hero 1))
                        Sample.empty_table Sample.zero_overrides)) = [build_slot].
Proof.
  refine (proj2 (basic_always_has_a_slot Sample.no_entity (Sample.hero 1)
                   Sample.empty_table Sample.zero_overrides) 0 0 _ _ _).
  - reflexivity.
  - reflexivity.
  - lia.
Defined.

Lemma choose_spec fromUuid (l : list Item) (cb cs : list FacilityCtx) :
  choose fromUuid l (cb, cs)
  = (cb ++ (_prepareFacilityContext fromUuid <$> filter (λ it, ¬ is_special it) l),
     cs ++ (_prepareFacilityContext fromUuid <$> filter is_special l)).
Proof.
  revert cb cs. induction l as [|it l IH]; intros cb cs.
  - cbn. by rewrite !app_nil_r.
  - cbn [choose _prepareFacilityContext isSpecial fst snd].
    rewrite !filter_cons. fold (is_special it).
    case_bool_decide as Hs.
    + rewrite IH. rewrite decide_False by tauto. rewrite decide_True by done.
      by rewrite fmap_cons, <- app_assoc.
    + rewrite IH. rewrite decide_True by done. rewrite decide_False by done.
      by rewrite fmap_cons, <- app_assoc.
Qed.

Lemma filter_all {A} (P : A → Prop) `{!∀ x, Decision (P x)} (l : list A) :
  (∀ x, P x) → filter P l = l.
Proof.
  intros HP. induction l as [|x l IH]; [done|].
  by rewrite filter_cons_True, IH.
Qed.

Lemma length_filter_fmap {A B} (f : A → B) (P : A → Prop) (Q : B → Prop)
    `{!∀ x, Decision (P x)} `{!∀ y, Decision (Q y)} (l : list A) :
  (∀ x, Q (f x) ↔ P x) →
  length (filter Q (f <$> l)) = length (filter P l).
Proof.
  intros Hiff. induction l as [|x l IH]; [done|].
  rewrite fmap_cons, !filter_cons.
  destruct (decide (Q (f x))) as [Hq|Hq], (decide (P x)) as [Hp|Hp];
    cbn; rewrite ?IH; try done; exfalso; apply Hiff in Hq || apply Hiff in Hp; done.
Qed.

(** C5: the count [value] of the basic category is the number of the actor's
    basic facilities, the free ones included; that of the special category is
    the number of its special facilities that are not free. *)
Theorem value_counts_facilities fromUuid (a : Actor) advancement overrides :
  let f := _prepareFacilitiesContext fromUuid (Some a) advancement overrides in
  value (f_basic f) = Some (Z.of_nat (length (facilities_of a basic)))
  ∧ value (f_special f)
    = Some (Z.of_nat (length (filter (λ it, sys_free it = false)
                                (facilities_of a special)))).
Proof.
  intros f. subst f. cbn [_prepareFacilitiesContext f_basic f_special].
  rewrite choose_spec. cbn [fst snd app].
  split.
  - match goal with |- value (ensure_build_slot ?x) = _ =>
      destruct (ensure_build_slot_fields x) as (_ & -> & _) end.
    cbn [slots_for value]. do 2 f_equal.
    rewrite filter_all by (intros x; by rewrite bool_decide_true).
    by rewrite length_fmap.
  - cbn [slots_for value]. do 2 f_equal.
    apply (length_filter_fmap (_prepareFacilityContext fromUuid)
             (λ it : Item, sys_free it = false)
             (λ f : FacilityCtx, bool_decide (special = basic) || negb (free f) = true)).
    intros x. cbn. by destruct (sys_free x).
Qed.

(** ** The occupancy builder *)

Section OccupancyBuilder.

Variable fromUuid : string → option Entity.

(** The loop pushes the slots of the indices [i], [i + 1], ... in order. *)
Lemma occupants_loop_eq uuids n i acc :
  occupants_loop fromUuid uuids n i acc
  = acc ++ ((λ j, occupant_slot fromUuid uuids (i + Z.of_nat j)) <$> seq 0 n).
Proof.
  revert i acc. induction n as [|n IH]; intros i acc.
  - cbn. by rewrite app_nil_r.
  - cbn [occupants_loop]. rewrite IH, <- app_assoc. f_equal.
    cbn [seq fmap list_fmap app]. rewrite Z.add_0_r. f_equal.
    rewrite <- fmap_S_seq, <- list_fmap_compose.
    apply list_fmap_ext. intros _ j _. cbn. f_equal. lia.
Qed.

Lemma prepareOccupants_loop refs capacity :
  0 ≤ capacity →
  _prepareOccupants fromUuid (occupant_data refs capacity)
  = (λ j, occupant_slot fromUuid refs (Z.of_nat j)) <$> seq 0 (Z.to_nat capacity).
Proof.
  intros Hc. unfold _prepareOccupants, occupant_data. cbn.
  destruct (Z.eqb_spec capacity 0) as [->|Hne]; cbn.
  - by destruct (negb _).
  - rewrite andb_false_r. rewrite Z.sub_0_r. apply occupants_loop_eq.
Qed.

Lemma str_truthy_stored_ref refs (i : nat) :
  uuid_at refs (Z.of_nat i) = mjoin (refs !! i)
  ∧ (Js.str_truthy (mjoin (refs !! i)) = true → stored_ref refs i = mjoin (refs !! i))
  ∧ (Js.str_truthy (mjoin (refs !! i)) = false → stored_ref refs i = None).
Proof.
  unfold uuid_at, stored_ref. rewrite Nat2Z.id.
  assert ((Z.of_nat i <? 0) = false) as -> by (apply Z.ltb_ge; lia).
  split; [done|].
  destruct (refs !! i) as [[u|]|]; cbn; try done.
  destruct (String.eqb_spec u ""); cbn; case_decide; done.
Qed.

Lemma occupant_slot_spec refs (i : nat) :
  let s := occupant_slot fromUuid refs (Z.of_nat i) in
  index s = Z.of_nat i
  ∧ uuid s = stored_ref refs i
  ∧ actor s = stored_ref refs i ≫= fromUuid
  ∧ empty s = negb (bool_decide (is_Some (stored_ref refs i ≫= fromUuid))).
Proof.
  unfold occupant_slot.
  destruct (str_truthy_stored_ref refs i) as (-> & Ht & Hf).
  destruct (Js.str_truthy (mjoin (refs !! i))) eqn:E; cbn.
  - by rewrite Ht.
  - rewrite Hf by done. cbn. split_and!; try done.
Qed.

(** C3: for every list of references and every capacity that is not
    negative, the builder returns exactly [capacity] slots, whatever the
    length of the list; for capacity 0 and no reference it returns the
    empty sequence. *)
Theorem occupancy_has_capacity_slots refs capacity :
  0 ≤ capacity →
  Z.of_nat (length (_prepareOccupants fromUuid (occupant_data refs capacity)))
  = capacity
  ∧ _prepareOccupants fromUuid (occupant_data [] 0) = [].
Proof.
  intros Hc. split; [|reflexivity].
  rewrite prepareOccupants_loop by done.
  rewrite length_fmap, length_seq. lia.
Qed.

(** C8, as amended: the builder returns as many slots as the declared
    capacity; the slot at index [i] carries that index and the reference
    stored at [i], and it is marked empty if and only if no reference is
    stored at that index or the stored reference no longer resolves. *)
Theorem slot_empty_iff_no_resolved_ref refs capacity :
  0 ≤ capacity →
  let slots := _prepareOccupants fromUuid (occupant_data refs capacity) in
  Z.of_nat (length slots) = capacity
  ∧ ∀ (i : nat) s, slots !! i = Some s →
      index s = Z.of_nat i
      ∧ uuid s = stored_ref refs i
      ∧ (empty s = true ↔
         stored_ref refs i = None
         ∨ ∃ u, stored_ref refs i = Some u ∧ fromUuid u = None).
Proof.
  intros Hc slots. subst slots.
  rewrite prepareOccupants_loop by done. split.
  - rewrite length_fmap, length_seq. lia.
  - intros i s Hs.
    apply list_lookup_fmap_Some in Hs as (j & -> & Hj).
    apply lookup_seq in Hj as [-> _]. cbn [Nat.add].
    destruct (occupant_slot_spec refs i) as (Hi & Hu & _ & He).
    split_and!; [done|done|].
    rewrite He. destruct (stored_ref refs i) as [u|]; cbn;
      [destruct (fromUuid u) eqn:Eu; cbn|].
    + split; [done|]. intros [?|(u' & [= <-] & ?)]; congruence.
    + split; [|done]. intros _. right. eauto.
    + split; [|done]. intros _. by left.
Qed.

End OccupancyBuilder.

(** One reference that resolves and capacity 2: a bound slot and an empty
    one. *)
Example occupancy_of_one_ref :
  _prepareOccupants Sample.only_A (occupant_data [Some "uuid-A"] 2)
  = [ {| index := 0; uuid := Some "uuid-A";
         actor := Some {| ent_name := "Aria"; ent_img := "aria.webp";
                          ent_uuid := "uuid-A" |};
         empty := false |};
      {| index := 1; uuid := None; actor := None; empty := true |} ].
Proof. reflexivity. Qed.

(** One reference and capacity 2 give two slots. *)
Lemma occupancy_has_capacity_slots_witness :
  Z.of_nat (length (_prepareOccupants Sample.only_A (occupant_data [Some "uuid-A"] 2))) = 2
  ∧ _prepareOccupants Sample.only_A (occupant_data [] 0) = [].
Proof.
  refine (occupancy_has_capacity_slots Sample.only_A [Some "uuid-A"] 2 _). lia.
Defined.

Lemma slot_empty_iff_no_resolved_ref_witness :
  Z.of_nat (length (_prepareOccupants Sample.only_A
                      (occupant_data [Some "uuid-A"; Some "uuid-B"] 3))) = 3
  ∧ ∀ (i : nat) s,
      _prepareOccupants Sample.only_A
        (occupant_data [Some "uuid-A"; Some "uuid-B"] 3) !! i = Some s →
      index s = Z.of_nat i
      ∧ uuid s = stored_ref [Some "uuid-A"; Some "uuid-B"] i
      ∧ (empty s = true ↔
         stored_ref [Some "uuid-A"; Some "uuid-B"] i = None
         ∨ ∃ u, stored_ref [Some "uuid-A"; Some "uuid-B"] i = Some u
                ∧ Sample.only_A u = None).
Proof.
  refine (slot_empty_iff_no_resolved_ref Sample.only_A
            [Some "uuid-A"; Some "uuid-B"] 3 _). lia.
Defined.

(** C8 as stated fails when a stored reference no longer resolves: the slot
    keeps the reference at its index and is marked empty all the same. *)
Lemma unresolved_ref_gives_empty_slot :
  _prepareOccupants Sample.no_entity (occupant_data [Some "uuid-A"] 1)
  = [{| index := 0; uuid := Some "uuid-A"; actor := None; empty := true |}]
  ∧ stored_ref [Some "uuid-A"] 0 = Some "uuid-A"
  ∧ ¬ ∀ (i : nat) s,
        _prepareOccupants Sample.no_entity (occupant_data [Some "uuid-A"] 1) !! i
        = Some s →
        (empty s = true ↔ stored_ref [Some "uuid-A"] i = None).
Proof.
  split_and!; [reflexivity|reflexivity|].
  intros H. specialize (H 0%nat _ eq_refl). cbn in H.
  destruct H as [H _]. specialize (H eq_refl). discriminate H.
Qed.


(** ** The manager: visibility and enabled bastions *)

Lemma visibility_lookup (game : Manager.Game) actorId :
  default {| Manager.vis_public := None; Manager.vis_users := None |}
    (default ∅ (Manager.visibilitySettings game) !! actorId)
  = default {| Manager.vis_public := None; Manager.vis_users := None |}
      (visibility_of game actorId).
Proof.
  unfold visibility_of. destruct (Manager.visibilitySettings game); cbn; [done|].
  by rewrite lookup_empty.
Qed.

Lemma privileged_iff (game : Manager.Game) userId :
  default false (Manager.isGM <$> (Manager.users game !! userId)) = true
  ↔ privileged game userId.
Proof.
  unfold privileged. destruct (Manager.users game !! userId) as [u|]; cbn.
  - split; [by eauto|]. by intros (u' & [= <-] & Hu).
  - split; [done|]. by intros (u' & ? & _).
Qed.

Lemma owns_actor_iff (game : Manager.Game) actorId :
  default false (isOwner <$> (Manager.actors game !! actorId)) = true
  ↔ owns_actor game actorId.
Proof.
  unfold owns_actor. destruct (Manager.actors game !! actorId) as [a|]; cbn.
  - split; [by eauto|]. by intros (a' & [= <-] & Ha).
  - split; [done|]. by intros (a' & ? & _).
Qed.

Lemma listed_iff (users : option (list string)) (userId : string) :
  match users with
  | Some listed => Js.boolean (bool_decide (userId ∈ listed))
  | None => Js.undefined
  end = Js.boolean true
  ↔ ∃ listed, users = Some listed ∧ userId ∈ listed.
Proof.
  destruct users as [l|].
  - case_bool_decide as Hin.
    + split; [by eauto|done].
    + split; [done|]. by intros (l' & [= <-] & ?).
  - split; [done|]. by intros (l' & ? & _).
Qed.

(** The last line of [canViewBastion]: shared with everyone or with the
    user. *)
Lemma shared_iff (game : Manager.Game) actorId userId :
  let v := default {| Manager.vis_public := None; Manager.vis_users := None |}
             (visibility_of game actorId) in
  Js.or (Js.of_bool (Manager.vis_public v))
        (match Manager.vis_users v with
         | Some listed => Js.boolean (bool_decide (userId ∈ listed))
         | None => Js.undefined
         end) = Js.boolean true
  ↔ marked_public game actorId ∨ lists_user game actorId userId.
Proof.
  unfold marked_public, lists_user.
  destruct (visibility_of game actorId) as [[p us]|]; cbn.
  - destruct p as [[]|]; unfold Js.or; cbn.
    + split; [intros _; left; by eauto|done].
    + rewrite listed_iff. split.
      * intros (l & -> & Hin). right. by eauto.
      * intros [(v & [= <-] & Hp)|(v & l & [= <-] & Hu & Hin)]; [done|by eauto].
    + rewrite listed_iff. split.
      * intros (l & -> & Hin). right. by eauto.
      * intros [(v & [= <-] & Hp)|(v & l & [= <-] & Hu & Hin)]; [done|by eauto].
  - unfold Js.or; cbn. split; [done|].
    by intros [(v & ? & _)|(v & l & ? & _)].
Qed.

(** What [canViewBastion] computes, for every user id: [true] exactly when
    the given user is a game master, or the host reports the target actor as
    owned at this client, or the actor's visibility settings mark it public
    or list the given user; so it returns [true] for every game master,
    whatever the other inputs.  A call without a user id stands for the
    current user. *)
Lemma canViewBastion_iff (game : Manager.Game) (actorId userId : string) :
  (Manager.canViewBastion game actorId (Some userId) = Js.boolean true
   ↔ privileged game userId ∨ owns_actor game actorId
     ∨ marked_public game actorId ∨ lists_user game actorId userId)
  ∧ (privileged game userId →
     Manager.canViewBastion game actorId (Some userId) = Js.boolean true)
  ∧ Manager.canViewBastion game actorId None
    = Manager.canViewBastion game actorId
        (Some (Manager.user_id (Manager.user game))).
Proof.
  assert (Manager.canViewBastion game actorId (Some userId) = Js.boolean true
          ↔ privileged game userId ∨ owns_actor game actorId
            ∨ marked_public game actorId ∨ lists_user game actorId userId) as Hiff.
  { unfold Manager.canViewBastion. cbn [default]. rewrite visibility_lookup.
    rewrite <- privileged_iff, <- owns_actor_iff, <- (shared_iff game actorId userId).
    destruct (default false (Manager.isGM <$> _)); [by intuition|].
    destruct (default false (isOwner <$> _)); [by intuition|].
    cbn zeta. intuition congruence. }
  split_and!; [exact Hiff| |reflexivity].
  intros Hp. apply Hiff. by left.
Qed.

(** C2 fails on the code when the user asked about is not the current user:
    [canViewBastion] looks up the role and the listing of the user it is
    given, but for the ownership it reads [actor.isOwner], the flag of the
    current user.  At the guest's client, where the hero is not owned, the
    call for the player, who holds the owner level on the hero, returns
    [undefined] and not [true].  At the player's client, where the hero is
    owned, the call for the guest, who is no game master, holds no level on
    the hero and is not shared with, returns [true]. *)
Theorem canViewBastion_reads_the_current_users_ownership :
  (user_owns 3 (Sample.owned_game Sample.guest false) "hero" "player"
   ∧ Manager.canViewBastion (Sample.owned_game Sample.guest false) "hero"
       (Some "player") = Js.undefined)
  ∧ (¬ privileged (Sample.owned_game Sample.player true) "guest"
     ∧ ¬ user_owns 3 (Sample.owned_game Sample.player true) "hero" "guest"
     ∧ ¬ marked_public (Sample.owned_game Sample.player true) "hero"
     ∧ ¬ lists_user (Sample.owned_game Sample.player true) "hero" "guest"
     ∧ Manager.canViewBastion (Sample.owned_game Sample.player true) "hero"
         (Some "guest") = Js.boolean true).
Proof.
  split.
  - split; [|vm_compute; reflexivity].
    eexists. split; vm_compute; reflexivity.
  - split_and!.
    + intros (u & Hu & Hgm). vm_compute in Hu. by simplify_eq.
    + intros (a & Ha & Hown). vm_compute in Ha. injection Ha as <-.
      vm_compute in Hown. discriminate Hown.
    + intros (v & Hv & _). vm_compute in Hv. discriminate Hv.
    + intros (v & l & Hv & _). vm_compute in Hv. discriminate Hv.
    + vm_compute. reflexivity.
Qed.

(** C10: [isBastionEnabled] returns [true] unless the entry stored for the
    actor is the boolean [false]; a missing entry, [null], 0 and the empty
    string all count as enabled. *)
Theorem isBastionEnabled_unless_false (game : Manager.Game) (actorId : string) :
  (Manager.isBastionEnabled game actorId = true
   ↔ enabled_entry game actorId ≠ Some (Js.boolean false))
  ∧ (enabled_entry game actorId = None
     ∨ enabled_entry game actorId = Some Js.null
     ∨ enabled_entry game actorId = Some (Js.number 0)
     ∨ enabled_entry game actorId = Some (Js.text "") →
     Manager.isBastionEnabled game actorId = true).
Proof.
  assert (default Js.undefined (default ∅ (Manager.enabledBastions game) !! actorId)
          = default Js.undefined (enabled_entry game actorId)) as Hl.
  { unfold enabled_entry. destruct (Manager.enabledBastions game); cbn; [done|].
    by rewrite lookup_empty. }
  unfold Manager.isBastionEnabled. cbn zeta. rewrite Hl.
  split.
  - destruct (enabled_entry game actorId) as [v|]; [|done].
    destruct v; cbn; try (split; congruence).
    match goal with |- context [Js.boolean ?b] => destruct b end;
      cbn; split; congruence.
  - intros [-> | [-> | [-> | ->]]]; reflexivity.
Qed.

(** The sample table stores [null] for its actor. *)
Lemma isBastionEnabled_unless_false_witness :
  Manager.isBastionEnabled Sample.table_game "hero" = true.
Proof.
  refine (proj2 (isBastionEnabled_unless_false Sample.table_game "hero") _).
  right. left. vm_compute. reflexivity.
Defined.


(** ** The drop handlers *)

Lemma str_truthy_Some (x : string) : x ≠ "" → Js.str_truthy (Some x) = true.
Proof. intros Hx. cbn. by destruct (String.eqb_spec x ""). Qed.






(** Whatever is dropped on a facility slot, the actor is written only when
    the drop ends with the notice that the facility was added; every other
    path leaves the actor and its items as they were. *)
Lemma onDropFacility_writes_only_on_success fromUuid event (w : E.World) :
  E.this_actor (E._onDropFacility fromUuid event w).2 = E.this_actor w
  ∨ E.notifications (E._onDropFacility fromUuid event w).2
    = E.notifications w
      ++ [notice E.info "BASTION_MANAGER.Notifications.FacilityAdded"].
Proof.
  unfold E._onDropFacility, mbind, E.M_bind, E.get_actor, E.get_isGM,
    E.createEmbeddedDocuments, E.modify_items, E.notify, E.render, E.throw.
  repeat case_match; cbn; auto.
Qed.

(** Whatever is dropped on an occupant slot, a warning is never followed by
    a write: the handler either leaves the actor as it was or renders the
    view again after its update. *)
Lemma onDropActor_writes_only_on_success event (w : E.World) :
  E.this_actor (E._onDropActor event w).2 = E.this_actor w
  ∨ (E.notifications (E._onDropActor event w).2 = E.notifications w
     ∧ E.renders (E._onDropActor event w).2 = S (E.renders w)).
Proof.
  unfold E._onDropActor, mbind, E.M_bind, E.get_actor,
    E.facility_update, E.modify_items, E.notify, E.render.
  repeat case_match; cbn; auto.
Qed.

(** ** The manager: writing the settings *)

(** X1: when a game master sets the enabled flag of an actor,
    [isBastionEnabled] returns that flag for the actor and what it returned
    before for every other actor, and the overview is rendered again exactly
    when it was rendered; for any other user nothing changes. *)
Theorem setBastionEnabled_roundtrip (s : Manager.Session) (a : string) (b : bool) :
  (Manager.isGM (Manager.user (Manager.game s)) = true →
   Manager.isBastionEnabled (Manager.game (Manager.setBastionEnabled s a b)) a = b
   ∧ (∀ a', a' ≠ a →
        Manager.isBastionEnabled (Manager.game (Manager.setBastionEnabled s a b)) a'
        = Manager.isBastionEnabled (Manager.game s) a')
   ∧ Manager.overview_renders (Manager.setBastionEnabled s a b)
     = if Manager.overview_rendered s
       then S (Manager.overview_renders s) else Manager.overview_renders s)
  ∧ (Manager.isGM (Manager.user (Manager.game s)) = false →
     Manager.setBastionEnabled s a b = s).
Proof.
  unfold Manager.setBastionEnabled. split; intros ->; cbn [negb]; [|done].
  split_and!; [| |done].
  - unfold Manager.isBastionEnabled. cbn.
    rewrite lookup_insert_eq. by destruct b.
  - intros a' Hne. unfold Manager.isBastionEnabled. cbn.
    by rewrite lookup_insert_ne.
Qed.

(** X2: when a game master stores building overrides for an actor,
    [getBuildingOverrides] returns them for that actor and what it returned
    before for every other actor; for any other user nothing changes. *)
Theorem setBuildingOverrides_roundtrip (game : Manager.Game) (a : string)
    (overrides : Overrides) :
  (Manager.isGM (Manager.user game) = true →
   Manager.getBuildingOverrides (Manager.setBuildingOverrides game a overrides) a
   = overrides
   ∧ ∀ a', a' ≠ a →
       Manager.getBuildingOverrides (Manager.setBuildingOverrides game a overrides) a'
       = Manager.getBuildingOverrides game a')
  ∧ (Manager.isGM (Manager.user game) = false →
     Manager.setBuildingOverrides game a overrides = game).
Proof.
  unfold Manager.setBuildingOverrides. split; intros ->; cbn [negb]; [|done].
  unfold Manager.getBuildingOverrides. cbn. split.
  - by rewrite lookup_insert_eq.
  - intros a' Hne. by rewrite lookup_insert_ne.
Qed.

(** X3: after the owner of an actor or a game master stores visibility
    settings for it, [canViewBastion] returns [true] for a user exactly when
    the user is a game master, or the actor is reported as owned, or the new
    settings are public or list the user; the answers for every other actor
    are as before.  A user who is neither cannot change the settings. *)
Theorem setVisibility_then_canView (game : Manager.Game) (a : string)
    (public : bool) (listed : list string) (userId : string) :
  let settings := {| Manager.vis_public := Some public;
                     Manager.vis_users := Some listed |} in
  (owns_actor game a ∨ Manager.isGM (Manager.user game) = true →
   (Manager.canViewBastion (Manager.setVisibility game a settings) a (Some userId)
    = Js.boolean true
    ↔ privileged game userId ∨ owns_actor game a ∨ public = true ∨ userId ∈ listed)
   ∧ ∀ a', a' ≠ a →
       Manager.canViewBastion (Manager.setVisibility game a settings) a' (Some userId)
       = Manager.canViewBastion game a' (Some userId))
  ∧ (¬ owns_actor game a → Manager.isGM (Manager.user game) = false →
     Manager.setVisibility game a settings = game).
Proof.
  intros settings. unfold Manager.setVisibility. cbn zeta.
  pose proof (owns_actor_iff game a) as Hown. split.
  - intros Hmay.
    assert (negb (default false (isOwner <$> (Manager.actors game !! a)))
            && negb (Manager.isGM (Manager.user game)) = false) as ->.
    { destruct Hmay as [Ho| ->]; [|apply andb_false_r].
      apply Hown in Ho. by rewrite Ho. }
    split.
    + unfold Manager.canViewBastion. cbn. rewrite lookup_insert_eq. cbn.
      rewrite <- privileged_iff, <- Hown.
      destruct (default false (Manager.isGM <$> _)); [by intuition|].
      destruct (default false (isOwner <$> _)); [by intuition|].
      unfold Js.or. destruct public; cbn; [by intuition|].
      case_bool_decide; intuition congruence.
    + intros a' Hne. unfold Manager.canViewBastion. cbn.
      by rewrite lookup_insert_ne.
  - intros Hno Hgm. rewrite Hgm.
    destruct (default false (isOwner <$> (Manager.actors game !! a))) eqn:E;
      [|done].
    exfalso. apply Hno. by apply Hown.
Qed.

(** ** More on the slot calculator *)

Lemma prepared_slots fromUuid (a : Actor) advancement overrides :
  f_basic (_prepareFacilitiesContext fromUuid (Some a) advancement overrides)
  = ensure_build_slot
      (slots_for basic (adv_basic advancement) (Js.int_or (details_level a) 1) overrides
         (_prepareFacilityContext fromUuid <$> facilities_of a basic))
  ∧ f_special (_prepareFacilitiesContext fromUuid (Some a) advancement overrides)
    = slots_for special (adv_special advancement) (Js.int_or (details_level a) 1)
        overrides (_prepareFacilityContext fromUuid <$> facilities_of a special).
Proof.
  cbn [_prepareFacilitiesContext f_basic f_special adv_config].
  by rewrite choose_spec.
Qed.

(** X4: the number of available special slots is [max - value], and 0 when
    that is negative; the number of available basic slots is [max - value],
    and 1 when that is less than 1. *)
Theorem available_counts fromUuid (a : Actor) advancement overrides :
  let f := _prepareFacilitiesContext fromUuid (Some a) advancement overrides in
  ∃ mb vb ms vs,
    max (f_basic f) = Some mb ∧ value (f_basic f) = Some vb
    ∧ max (f_special f) = Some ms ∧ value (f_special f) = Some vs
    ∧ Z.of_nat (length (available (f_basic f))) = Z.max 1 (mb - vb)
    ∧ Z.of_nat (length (available (f_special f))) = Z.max 0 (ms - vs).
Proof.
  intros f. subst f.
  destruct (prepared_slots fromUuid a advancement overrides) as [-> ->].
  match goal with |- context [ensure_build_slot ?x] =>
    destruct (ensure_build_slot_fields x) as (-> & -> & _)
  end.
  rewrite available_length_ensure.
  do 4 eexists. split_and!; [reflexivity..| |].
  - rewrite (slots_for_remaining _ _ _ _ _ _ _ eq_refl eq_refl). lia.
  - rewrite (slots_for_remaining _ _ _ _ _ _ _ eq_refl eq_refl). lia.
Qed.

(** The free slots that the loop body gives a type. *)
Lemma slots_for_available t config level overrides cs m v :
  max (slots_for t config level overrides cs) = Some m →
  value (slots_for t config level overrides cs) = Some v →
  available (slots_for t config level overrides cs)
  = replicate (Z.to_nat (Z.max 0 (m - v)))
      {| label := "DND5E.FACILITY.AvailableFacility." +:+ type_name t +:+ ".free" |}.
Proof.
  cbn [slots_for max value available]. by intros [= <-] [= <-].
Qed.

(** X5: the basic "build" slot is offered exactly when [max - value] is 0 or
    less, and it is then the only available slot; otherwise the available
    basic slots are [max - value] "free" slots and nothing else. *)
Theorem build_slot_iff_no_free_slot fromUuid (a : Actor) advancement overrides :
  let s := f_basic (_prepareFacilitiesContext fromUuid (Some a) advancement overrides) in
  ∃ m v, max s = Some m ∧ value s = Some v
         ∧ (build_slot ∈ available s ↔ m - v ≤ 0)
         ∧ (m - v ≤ 0 → available s = [build_slot])
         ∧ (0 < m - v →
            available s = replicate (Z.to_nat (m - v)) free_basic_slot).
Proof.
  intros s. subst s.
  destruct (prepared_slots fromUuid a advancement overrides) as [-> _].
  match goal with |- context [ensure_build_slot ?x] =>
    destruct (ensure_build_slot_fields x) as (-> & -> & _); set (s := x)
  end.
  destruct (max s) as [m|] eqn:Hm; [|by subst s].
  destruct (value s) as [v|] eqn:Hv; [|by subst s].
  exists m, v. split; [done|]. split; [done|].
  pose proof (slots_for_available _ _ _ _ _ m v Hm Hv) as Hav.
  change (available s = replicate (Z.to_nat (Z.max 0 (m - v))) free_basic_slot)
    in Hav.
  unfold ensure_build_slot. rewrite Hav, length_replicate.
  case_bool_decide as Hz; cbn [available]; rewrite ?Hav.
  - assert (m - v ≤ 0) as Hle by lia.
    replace (Z.to_nat (Z.max 0 (m - v))) with 0%nat by lia.
    split_and!; [|done|lia].
    split; [done|]. intros _. by apply list_elem_of_singleton.
  - assert (0 < m - v) as Hlt by lia.
    replace (Z.max 0 (m - v)) with (m - v) by lia.
    split_and!; [|lia|done].
    split; [|lia].
    intros Hin. apply elem_of_replicate in Hin as [Heq _]. discriminate Heq.
Qed.

(** X6: every facility item of the actor is prepared once, in order, into
    the chosen list of its category, special when its type is ['special'] and
    basic otherwise; items that are not facilities are in neither list. *)
Theorem chosen_partition fromUuid (a : Actor) advancement overrides :
  let f := _prepareFacilitiesContext fromUuid (Some a) advancement overrides in
  chosen (f_basic f) = _prepareFacilityContext fromUuid <$> facilities_of a basic
  ∧ chosen (f_special f) = _prepareFacilityContext fromUuid <$> facilities_of a special
  ∧ (length (chosen (f_basic f)) + length (chosen (f_special f)))%nat
    = length (filter (λ it, item_type it = "facility") (items a)).
Proof.
  intros f. subst f.
  destruct (prepared_slots fromUuid a advancement overrides) as [-> ->].
  match goal with |- context [ensure_build_slot ?x] =>
    destruct (ensure_build_slot_fields x) as (_ & _ & _ & ->)
  end.
  cbn [slots_for chosen]. split_and!; [done|done|].
  rewrite !length_fmap. unfold facilities_of, itemTypes_facility.
  induction (filter _ (items a)) as [|it l IH]; [done|].
  rewrite !filter_cons. destruct (decide (is_special it)).
  - rewrite decide_False by tauto. cbn. lia.
  - rewrite decide_True by done. cbn. lia.
Qed.

(** The slots of any occupant data, also where the early return is taken:
    one slot for each index below [max || 0]. *)
Lemma prepareOccupants_eq fromUuid (data : option OccupantData) :
  _prepareOccupants fromUuid data
  = (λ j, occupant_slot fromUuid (default [] (data ≫= od_value)) (Z.of_nat j))
    <$> seq 0 (Z.to_nat (Js.int_or (data ≫= od_max) 0)).
Proof.
  unfold _prepareOccupants.
  destruct (negb (Js.int_truthy (Z.of_nat ∘ length <$> (data ≫= od_value)))
            && negb (Js.int_truthy (data ≫= od_max))) eqn:E.
  - apply andb_true_iff in E as [_ E].
    destruct (data ≫= od_max) as [m|]; cbn in *; [|done].
    destruct (Z.eqb_spec m 0); [done|discriminate E].
  - cbn zeta. rewrite Z.sub_0_r. apply occupants_loop_eq.
Qed.

Lemma prepareOccupants_length fromUuid (data : option OccupantData) :
  length (_prepareOccupants fromUuid data)
  = Z.to_nat (Js.int_or (data ≫= od_max) 0).
Proof. by rewrite prepareOccupants_eq, length_fmap, length_seq. Qed.

(** X7: [hasOccupants] says that the facility has occupant slots, not that
    a slot is taken: it is set exactly when the capacity of its defenders,
    hirelings or creatures is positive, whatever the lists hold. *)
Theorem hasOccupants_iff_capacity fromUuid (facility : Item) :
  hasOccupants (_prepareFacilityContext fromUuid facility) = true
  ↔ 0 < default 0 (sys_defenders facility ≫= od_max)
    ∨ 0 < default 0 (sys_hirelings facility ≫= od_max)
    ∨ 0 < default 0 (sys_creatures facility ≫= od_max).
Proof.
  cbn [_prepareFacilityContext hasOccupants].
  rewrite !orb_true_iff, !bool_decide_eq_true, !prepareOccupants_length.
  rewrite !int_or_default_0. lia.
Qed.

(** ** The rosters *)

Lemma roster_of_bind (occupants : Item → option OccupantData) (a : Actor) :
  roster_of occupants (Some a)
  = itemTypes_facility a ≫= λ facility,
      imap (λ i uuid, {| r_uuid := uuid; r_index := Z.of_nat i;
                         facilityId := item_id facility;
                         facilityName := item_name facility |})
           (default [] (occupants facility ≫= od_value)).
Proof.
  unfold roster_of. cbn [fmap option_fmap option_map default from_option id].
  change (Datatypes.id (itemTypes_facility a)) with (itemTypes_facility a).
  rewrite <- (app_nil_l (_ ≫= _)). generalize (@nil RosterEntry).
  induction (itemTypes_facility a) as [|f l IH]; intros acc.
  - cbn. by rewrite app_nil_r.
  - cbn [foldl]. rewrite IH, bind_cons, app_assoc. f_equal.
    destruct (occupants f ≫= od_value) as [[|u us]|]; cbn; try done.
    all: by rewrite app_nil_r.
Qed.

Lemma roster_of_elem (occupants : Item → option OccupantData) (a : Actor)
    (e : RosterEntry) :
  e ∈ roster_of occupants (Some a)
  ↔ ∃ f (i : nat),
      f ∈ itemTypes_facility a
      ∧ default [] (occupants f ≫= od_value) !! i = Some (r_uuid e)
      ∧ r_index e = Z.of_nat i
      ∧ facilityId e = item_id f ∧ facilityName e = item_name f.
Proof.
  rewrite roster_of_bind, list_elem_of_bind. split.
  - intros (f & He & Hf). apply elem_of_lookup_imap in He as (i & u & -> & Hu).
    exists f, i. by cbn.
  - intros (f & i & Hf & Hu & Hi & Hid & Hname). exists f. split; [|done].
    apply elem_of_lookup_imap. exists i, (r_uuid e). split; [|done].
    destruct e; cbn in *; by subst.
Qed.

Lemma roster_of_length (occupants : Item → option OccupantData) (a : Actor) :
  length (roster_of occupants (Some a))
  = sum_list_with (λ f, length (default [] (occupants f ≫= od_value)))
      (itemTypes_facility a).
Proof.
  rewrite roster_of_bind.
  induction (itemTypes_facility a) as [|f l IH]; [done|].
  rewrite bind_cons, length_app, length_imap, IH. done.
Qed.

(** X8: the defenders roster has one entry for every element of the
    defender list of every facility of the actor, carrying the element, its
    index and the facility's id and name, and nothing else; the hirelings
    roster is the same over the hireling lists.  Neither looks at the
    capacity of the list. *)
Theorem roster_lists_every_occupant (a : Actor) (e : RosterEntry) :
  (e ∈ _prepareDefendersContext (Some a)
   ↔ ∃ f (i : nat),
       f ∈ itemTypes_facility a
       ∧ default [] (sys_defenders f ≫= od_value) !! i = Some (r_uuid e)
       ∧ r_index e = Z.of_nat i
       ∧ facilityId e = item_id f ∧ facilityName e = item_name f)
  ∧ (e ∈ _prepareHirelingsContext (Some a)
     ↔ ∃ f (i : nat),
         f ∈ itemTypes_facility a
         ∧ default [] (sys_hirelings f ≫= od_value) !! i = Some (r_uuid e)
         ∧ r_index e = Z.of_nat i
         ∧ facilityId e = item_id f ∧ facilityName e = item_name f)
  ∧ length (_prepareDefendersContext (Some a))
    = sum_list_with (λ f, length (default [] (sys_defenders f ≫= od_value)))
        (itemTypes_facility a)
  ∧ length (_prepareHirelingsContext (Some a))
    = sum_list_with (λ f, length (default [] (sys_hirelings f ≫= od_value)))
        (itemTypes_facility a).
Proof.
  split_and!; [apply roster_of_elem|apply roster_of_elem
              |apply roster_of_length|apply roster_of_length].
Qed.

Lemma stored_ref_Some refs (i : nat) u :
  stored_ref refs i = Some u → refs !! i = Some (Some u).
Proof.
  unfold stored_ref. destruct (refs !! i) as [[u'|]|]; try done.
  case_decide; [done|]. by intros [= ->].
Qed.

(** X9: a defender slot of a facility that is bound to a reference has its
    entry in the defenders roster, with the same reference, index and
    facility; and likewise for hirelings. *)
Theorem bound_slot_is_in_roster fromUuid (a : Actor) (f : Item)
    (s : OccupantSlot) (u : string) :
  f ∈ itemTypes_facility a →
  uuid s = Some u →
  (s ∈ defenders (_prepareFacilityContext fromUuid f) →
   {| r_uuid := Some u; r_index := index s;
      facilityId := item_id f; facilityName := item_name f |}
   ∈ _prepareDefendersContext (Some a))
  ∧ (s ∈ hirelings (_prepareFacilityContext fromUuid f) →
     {| r_uuid := Some u; r_index := index s;
        facilityId := item_id f; facilityName := item_name f |}
     ∈ _prepareHirelingsContext (Some a)).
Proof.
  intros Hf Hu.
  assert (∀ occupants,
            s ∈ _prepareOccupants fromUuid (occupants f) →
            {| r_uuid := Some u; r_index := index s;
               facilityId := item_id f; facilityName := item_name f |}
            ∈ roster_of occupants (Some a)) as H.
  { intros occupants Hs. rewrite prepareOccupants_eq in Hs.
    apply list_elem_of_fmap in Hs as (j & -> & _).
    destruct (occupant_slot_spec fromUuid (default [] (occupants f ≫= od_value)) j)
      as (Hi & Hr & _).
    apply roster_of_elem. exists f, j. cbn. split_and!; try done.
    rewrite Hu in Hr. symmetry in Hr. by apply stored_ref_Some. }
  split; apply H.
Qed.


(** ** Occupants: dropping and deleting *)

Lemma set_value_same path v (it : Item) :
  (E.getProperty (E.set_value path v it) path = None
   ∧ E.getProperty it path = None)
  ∨ (occupants_at (E.set_value path v it) path = v
     ∧ capacity_at (E.set_value path v it) path = capacity_at it path).
Proof.
  unfold occupants_at, capacity_at, E.getProperty, E.set_value, E.with_value.
  repeat case_bool_decide; subst; cbn; auto.
Qed.

Lemma set_value_other path path' v (it : Item) :
  path ≠ path' →
  E.getProperty (E.set_value path v it) path' = E.getProperty it path'.
Proof.
  intros Hne. unfold E.getProperty, E.set_value.
  repeat case_bool_decide; subst; cbn; done.
Qed.

Lemma item_id_set_value path v (it : Item) :
  item_id (E.set_value path v it) = item_id it.
Proof. unfold E.set_value. by repeat case_bool_decide. Qed.

(** The update of a facility found under an id leaves it the item found
    under that id. *)
Lemma find_update (l : list Item) fid (g : Item → Item) facility :
  (∀ it, item_id (g it) = item_id it) →
  List.find (λ it, bool_decide (item_id it = fid)) l = Some facility →
  List.find (λ it, bool_decide (item_id it = fid))
    (map (λ it, if bool_decide (item_id it = fid) then g it else it) l)
  = Some (g facility).
Proof.
  intros Hg. induction l as [|it l IH]; [done|]. cbn.
  case_bool_decide as Hid.
  - intros [= ->]. by rewrite Hg, bool_decide_true.
  - intros Hf. rewrite bool_decide_false by done. by apply IH.
Qed.

Section IndexFilter.

Context {A : Type}.

(** Dropping one index by filtering on the position. *)
Lemma filter_index (i : Z) (k : nat) (l : list A) :
  snd <$> filter (λ p : nat * A, Z.of_nat p.1 ≠ i) (imap (λ j x, ((k + j)%nat, x)) l)
  = if decide (Z.of_nat k ≤ i) then delete (Z.to_nat i - k)%nat l else l.
Proof.
  revert k. induction l as [|x l IH]; intros k.
  - cbn. by case_decide.
  - cbn [imap]. rewrite filter_cons. cbn [fst].
    rewrite (imap_ext _ (λ j x, ((S k + j)%nat, x))) by (intros; cbn; f_equal; lia).
    rewrite Nat.add_0_r.
    destruct (decide (Z.of_nat k ≠ i)) as [Hne|Heq].
    + rewrite fmap_cons, IH. cbn [snd].
      destruct (decide (Z.of_nat k ≤ i)).
      * rewrite decide_True by lia.
        replace (Z.to_nat i - k)%nat with (S (Z.to_nat i - S k)) by lia. done.
      * by rewrite decide_False by lia.
    + rewrite IH. assert (Z.of_nat k = i) as <- by lia.
      rewrite decide_False by lia. rewrite decide_True by lia.
      by replace (Z.to_nat (Z.of_nat k) - k)%nat with 0%nat by lia.
Qed.

End IndexFilter.

Lemma list_delete_past_end {A} (i : nat) (l : list A) :
  (length l ≤ i)%nat → delete i l = l.
Proof.
  intros Hi. rewrite delete_take_drop, take_ge, drop_ge by lia.
  apply app_nil_r.
Qed.

Lemma remove_index_delete (i : Z) (l : list (option string)) :
  E.remove_index i l = if decide (0 ≤ i) then delete (Z.to_nat i) l else l.
Proof.
  unfold E.remove_index.
  rewrite (imap_ext _ (λ j x, ((0 + j)%nat, x))) by (intros; reflexivity).
  rewrite filter_index. change (Z.of_nat 0) with 0.
  destruct (decide (0 ≤ i)); [by rewrite Nat.sub_0_r|done].
Qed.

(** What an accepted drop on an occupant slot with room left does. *)
Lemma onDropActor_accepted (w : E.World) event data facility path :
  occupant_drop w event data facility path →
  ¬ slots_full facility path →
  ∃ fid a,
    E.facilityId event = Some fid
    ∧ E.this_actor w = Some a
    ∧ E.items_get a fid = Some facility
    ∧ E._onDropActor event w
      = (E.Returned (),
         {| E.this_actor :=
              Some (E.with_items
                (map (λ it, if bool_decide (item_id it = fid)
                            then E.set_value path
                                   (occupants_at facility path ++ [Some (E.d_uuid data)]) it
                            else it)) a);
            E.game_user_isGM := E.game_user_isGM w;
            E.notifications := E.notifications w;
            E.renders := S (E.renders w) |}).
Proof.
  intros (Hdata & Htype & fid & a & Hfid & Hfne & Hprop & Hpne & Ha & Hget) Hroom.
  exists fid, a. split_and!; [done..|].
  unfold E._onDropActor. rewrite Hdata, Htype, Hfid, Hprop.
  rewrite bool_decide_true by done.
  rewrite (str_truthy_Some _ Hfne), (str_truthy_Some _ Hpne).
  cbn [negb orb default].
  change (Datatypes.id fid) with fid. change (Datatypes.id path) with path.
  unfold mbind, E.M_bind, E.get_actor. rewrite Ha. cbn [mbind option_bind].
  rewrite Hget. cbn zeta. rewrite !int_or_default_0.
  match goal with |- context [?n >=? ?m] =>
    assert ((n >=? m) = false) as ->
  end.
  { unfold slots_full in Hroom. rewrite Z.geb_leb. apply Z.leb_gt.
    destruct (E.getProperty facility path) as [[[l|] [m|]]|]; cbn in *; lia. }
  unfold E.facility_update, E.modify_items, E.render. cbn. by rewrite Ha.
Qed.

(** A drop on an occupant slot either leaves the actor as it was or is an
    accepted drop on a list with room left. *)
Lemma onDropActor_cases (w : E.World) event :
  E.this_actor (E._onDropActor event w).2 = E.this_actor w
  ∨ ∃ data facility path,
      occupant_drop w event data facility path ∧ ¬ slots_full facility path.
Proof.
  unfold E._onDropActor.
  destruct (E.drag_data event) as [data|] eqn:Hdata; [|by left].
  case_bool_decide as Htype; cbn [negb]; [|by left].
  destruct (E.facilityId event) as [fid|] eqn:Hfid; [|by left].
  destruct (E.prop event) as [path|] eqn:Hprop;
    [|left; cbn; by rewrite orb_true_r].
  destruct (Js.str_truthy (Some fid)) eqn:Tf; [|by left].
  destruct (Js.str_truthy (Some path)) eqn:Tp; [|by left].
  cbn [negb orb default].
  change (Datatypes.id fid) with fid. change (Datatypes.id path) with path.
  unfold mbind, E.M_bind, E.get_actor.
  destruct (E.this_actor w) as [a|] eqn:Ha; [|by left].
  cbn [mbind option_bind].
  destruct (E.items_get a fid) as [facility|] eqn:Hget; [|by left].
  cbn zeta. rewrite !int_or_default_0.
  match goal with |- context [?n >=? ?m] => destruct (n >=? m) eqn:Hfull end;
    [by left|].
  right. exists data, facility, path. split.
  - split_and!; [done|done|]. exists fid, a.
    split_and!; try done.
    + intros ->. discriminate Tf.
    + intros ->. discriminate Tp.
  - unfold slots_full. rewrite Z.geb_leb in Hfull. apply Z.leb_gt in Hfull.
    destruct (E.getProperty facility path) as [[[l|] [m|]]|]; cbn in *; lia.
Qed.

(** What an accepted click on the delete button of an occupant does. *)
Lemma onDeleteOccupant_accepted (w : E.World) target facility fid path i :
  occupant_click w target facility fid path i →
  ∃ a,
    E.this_actor w = Some a
    ∧ E.items_get a fid = Some facility
    ∧ E.onDeleteOccupant target w
      = (E.Returned (),
         {| E.this_actor :=
              Some (E.with_items
                (map (λ it, if bool_decide (item_id it = fid)
                            then E.set_value path
                                   (E.remove_index i (occupants_at facility path)) it
                            else it)) a);
            E.game_user_isGM := E.game_user_isGM w;
            E.notifications := E.notifications w;
            E.renders := S (E.renders w) |}).
Proof.
  intros (Hfid & Hfne & Hprop & Hpne & Hi & a & Ha & Hget).
  exists a. split_and!; [done..|].
  unfold E.onDeleteOccupant. rewrite Hfid, Hprop, Hi.
  rewrite (str_truthy_Some _ Hfne), (str_truthy_Some _ Hpne).
  rewrite bool_decide_true by eauto. cbn [negb orb default].
  change (Datatypes.id fid) with fid. change (Datatypes.id path) with path.
  change (Datatypes.id i) with i.
  unfold mbind, E.M_bind, E.get_actor. rewrite Ha. cbn [mbind option_bind].
  rewrite Hget. cbn zeta.
  unfold E.facility_update, E.modify_items, E.render. cbn. by rewrite Ha.
Qed.

Lemma onDeleteOccupant_cases (w : E.World) target :
  E.this_actor (E.onDeleteOccupant target w).2 = E.this_actor w
  ∨ ∃ facility fid path i, occupant_click w target facility fid path i.
Proof.
  unfold E.onDeleteOccupant.
  destruct (E.t_facilityId target) as [fid|] eqn:Hfid; [|by left].
  destruct (E.t_prop target) as [path|] eqn:Hprop;
    [|left; cbn; by rewrite orb_true_r].
  destruct (E.t_index target) as [i|] eqn:Hi;
    [|left; cbn; by rewrite orb_true_r].
  destruct (Js.str_truthy (Some fid)) eqn:Tf; [|by left].
  destruct (Js.str_truthy (Some path)) eqn:Tp; [|by left].
  rewrite bool_decide_true by eauto. cbn [negb orb default].
  change (Datatypes.id fid) with fid. change (Datatypes.id path) with path.
  unfold mbind, E.M_bind, E.get_actor.
  destruct (E.this_actor w) as [a|] eqn:Ha; [|by left].
  cbn [mbind option_bind].
  destruct (E.items_get a fid) as [facility|] eqn:Hget; [|by left].
  right. exists facility, fid, path, i.
  split_and!; try done.
  - intros ->. discriminate Tf.
  - intros ->. discriminate Tp.
  - by exists a.
Qed.

(** The facility found under [fid] after its occupant list at [path] was
    written. *)
Lemma updated_facility (a : Actor) fid path v facility :
  E.items_get a fid = Some facility →
  E.items_get
    (E.with_items
       (map (λ it, if bool_decide (item_id it = fid)
                   then E.set_value path v it else it)) a) fid
  = Some (E.set_value path v facility).
Proof.
  intros Hget. unfold E.items_get, E.with_items. cbn [items].
  apply (find_update _ _ (E.set_value path v)); [|done].
  intros. apply item_id_set_value.
Qed.

Lemma occupants_at_unknown (facility : Item) path :
  E.getProperty facility path = None →
  occupants_at facility path = [] ∧ capacity_at facility path = 0.
Proof. unfold occupants_at, capacity_at. by intros ->. Qed.

(** X10: an accepted drop of an actor on an occupant list with room left
    appends the dropped uuid to that list of the facility and leaves its
    capacity as it was, so the list stays within the capacity; no
    notification is raised, the view is rendered again, and the slot at the
    new index then shows the dropped uuid. *)
Theorem accepted_drop_appends_occupant fromUuid (w : E.World) event data facility path :
  occupant_drop w event data facility path →
  ¬ slots_full facility path →
  ∃ fid a' facility',
    E.facilityId event = Some fid
    ∧ (E._onDropActor event w).1 = E.Returned ()
    ∧ E.this_actor (E._onDropActor event w).2 = Some a'
    ∧ E.items_get a' fid = Some facility'
    ∧ occupants_at facility' path
      = occupants_at facility path ++ [Some (E.d_uuid data)]
    ∧ capacity_at facility' path = capacity_at facility path
    ∧ Z.of_nat (length (occupants_at facility' path)) ≤ capacity_at facility path
    ∧ E.notifications (E._onDropActor event w).2 = E.notifications w
    ∧ E.renders (E._onDropActor event w).2 = S (E.renders w)
    ∧ (E.d_uuid data ≠ "" →
       uuid <$> (_prepareOccupants fromUuid (E.getProperty facility' path)
                  !! length (occupants_at facility path))
       = Some (Some (E.d_uuid data))).
Proof.
  intros Hdrop Hroom.
  destruct (onDropActor_accepted w event data facility path Hdrop Hroom)
    as (fid & a & Hfid & Ha & Hget & ->).
  set (v := occupants_at facility path ++ [Some (E.d_uuid data)]).
  exists fid. eexists. exists (E.set_value path v facility).
  cbn [fst snd E.this_actor E.notifications E.renders].
  assert (Z.of_nat (length (occupants_at facility path)) < capacity_at facility path)
    as Hlt by (unfold slots_full in Hroom; unfold occupants_at, capacity_at; lia).
  destruct (set_value_same path v facility) as [[_ Hnone]|[Hocc Hcap]].
  { apply occupants_at_unknown in Hnone as [Ho Hc]. rewrite Ho, Hc in Hlt.
    cbn in Hlt. lia. }
  split_and!; try done.
  - by apply updated_facility.
  - rewrite Hocc. subst v. rewrite length_app. cbn. lia.
  - intros Hu. rewrite prepareOccupants_eq, int_or_default_0.
    change (default [] (E.getProperty (E.set_value path v facility) path ≫= od_value))
      with (occupants_at (E.set_value path v facility) path).
    change (default 0 (E.getProperty (E.set_value path v facility) path ≫= od_max))
      with (capacity_at (E.set_value path v facility) path).
    rewrite Hocc, Hcap.
    rewrite list_lookup_fmap, lookup_seq_lt by lia.
    cbn [fmap option_fmap option_map Nat.add].
    destruct (occupant_slot_spec fromUuid v (length (occupants_at facility path)))
      as (_ & -> & _).
    f_equal. unfold stored_ref, v.
    rewrite lookup_app_r, Nat.sub_diag by done. cbn.
    by rewrite decide_False.
Qed.

Lemma set_value_occupants path v (facility : Item) :
  (E.getProperty facility path = None → v = []) →
  occupants_at (E.set_value path v facility) path = v
  ∧ capacity_at (E.set_value path v facility) path = capacity_at facility path.
Proof.
  intros Hv. destruct (set_value_same path v facility) as [[H1 H2]|H]; [|done].
  destruct (occupants_at_unknown _ _ H1) as [-> ->].
  destruct (occupants_at_unknown _ _ H2) as [_ ->]. by rewrite Hv.
Qed.

(** X11: an accepted click on the delete button of an occupant writes the
    facility's list without the element at the clicked index, the elements
    after it moving down by one; an index that is negative or past the end
    writes the list as it is.  The capacity is kept, no notification is
    raised and the view is rendered again. *)
Theorem delete_occupant_removes_index (w : E.World) target facility fid path i :
  occupant_click w target facility fid path i →
  ∃ a' facility',
    (E.onDeleteOccupant target w).1 = E.Returned ()
    ∧ E.this_actor (E.onDeleteOccupant target w).2 = Some a'
    ∧ E.items_get a' fid = Some facility'
    ∧ occupants_at facility' path
      = (if decide (0 ≤ i < Z.of_nat (length (occupants_at facility path)))
         then take (Z.to_nat i) (occupants_at facility path)
              ++ drop (S (Z.to_nat i)) (occupants_at facility path)
         else occupants_at facility path)
    ∧ capacity_at facility' path = capacity_at facility path
    ∧ E.notifications (E.onDeleteOccupant target w).2 = E.notifications w
    ∧ E.renders (E.onDeleteOccupant target w).2 = S (E.renders w).
Proof.
  intros Hclick.
  destruct (onDeleteOccupant_accepted w target facility fid path i Hclick)
    as (a & Ha & Hget & ->).
  eexists. exists (E.set_value path (E.remove_index i (occupants_at facility path)) facility).
  cbn [fst snd E.this_actor E.notifications E.renders].
  destruct (set_value_occupants path
              (E.remove_index i (occupants_at facility path)) facility) as [Ho Hc].
  { intros Hn. apply occupants_at_unknown in Hn as [-> _]. by destruct i. }
  split_and!; try done.
  - by apply updated_facility.
  - rewrite Ho, remove_index_delete.
    destruct (decide (0 ≤ i)) as [Hi|Hi].
    + destruct (decide (Z.to_nat i < length (occupants_at facility path))%nat).
      * rewrite decide_True by lia. apply delete_take_drop.
      * rewrite decide_False by lia. apply list_delete_past_end. lia.
    + by rewrite decide_False by lia.
Qed.

(** X12: dropping an actor on an occupant list with room left and then
    deleting the occupant at the index it was given restores the list of
    the facility, and its capacity. *)
Theorem drop_then_delete_restores (w : E.World) event data facility path :
  occupant_drop w event data facility path →
  ¬ slots_full facility path →
  ∃ fid a2 facility2,
    E.facilityId event = Some fid
    ∧ E.this_actor
        (E.onDeleteOccupant
           {| E.t_facilityId := Some fid; E.t_prop := Some path;
              E.t_index := Some (Z.of_nat (length (occupants_at facility path))) |}
           (E._onDropActor event w).2).2 = Some a2
    ∧ E.items_get a2 fid = Some facility2
    ∧ occupants_at facility2 path = occupants_at facility path
    ∧ capacity_at facility2 path = capacity_at facility path.
Proof.
  intros Hdrop Hroom.
  assert (fid_ne : ∃ fid, E.facilityId event = Some fid ∧ fid ≠ "" ∧ path ≠ "").
  { destruct Hdrop as (_ & _ & fid & a & ? & ? & ? & ? & _). eauto. }
  destruct fid_ne as (fid0 & Hfid0 & Hfne & Hpne).
  destruct (onDropActor_accepted w event data facility path Hdrop Hroom)
    as (fid & a & Hfid & Ha & Hget & ->).
  assert (fid0 = fid) as -> by congruence.
  set (v := occupants_at facility path ++ [Some (E.d_uuid data)]).
  set (f1 := E.set_value path v facility).
  assert (Z.of_nat (length (occupants_at facility path)) < capacity_at facility path)
    as Hlt by (unfold slots_full in Hroom; unfold occupants_at, capacity_at; lia).
  destruct (set_value_occupants path v facility) as [Ho1 Hc1].
  { intros Hn. apply occupants_at_unknown in Hn as [Hn1 Hn2].
    rewrite Hn1, Hn2 in Hlt. cbn in Hlt. lia. }
  exists fid. cbn [snd].
  match goal with |- context [E.onDeleteOccupant ?t ?w1] =>
    destruct (onDeleteOccupant_accepted w1 t f1 fid path
                (Z.of_nat (length (occupants_at facility path))))
      as (a1 & Ha1 & Hget1 & ->)
  end.
  { split_and!; try done. eexists. split; [reflexivity|].
    by apply updated_facility. }
  cbn [E.this_actor] in Ha1. injection Ha1 as <-.
  eexists. eexists. cbn [snd E.this_actor].
  split_and!; [done|reflexivity|by apply updated_facility|..].
  - destruct (set_value_occupants path
                (E.remove_index (Z.of_nat (length (occupants_at facility path)))
                   (occupants_at f1 path)) f1) as [-> _].
    { intros Hn. apply occupants_at_unknown in Hn as [-> _].
      by destruct (length _). }
    subst f1. rewrite Ho1, remove_index_delete, decide_True by lia.
    rewrite Nat2Z.id. subst v.
    rewrite delete_take_drop, take_app_length.
    rewrite drop_app_ge by lia.
    replace (S (length (occupants_at facility path))
             - length (occupants_at facility path))%nat with 1%nat by lia.
    cbn. by rewrite app_nil_r.
  - destruct (set_value_occupants path
                (E.remove_index (Z.of_nat (length (occupants_at facility path)))
                   (occupants_at f1 path)) f1) as [_ ->].
    { intros Hn. apply occupants_at_unknown in Hn as [-> _].
      by destruct (length _). }
    by subst f1.
Qed.

Lemma find_by_id_unique (l : list Item) fid facility it :
  NoDup (item_id <$> l) →
  List.find (λ it, bool_decide (item_id it = fid)) l = Some facility →
  it ∈ l → item_id it = fid → it = facility.
Proof.
  induction l as [|x l IH]; intros Hnd Hf Hin Hid; [by apply elem_of_nil in Hin|].
  rewrite fmap_cons in Hnd. apply NoDup_cons in Hnd as [Hx Hnd].
  cbn in Hf. case_bool_decide as Hxid.
  - injection Hf as <-. apply elem_of_cons in Hin as [->|Hin]; [done|].
    exfalso. apply Hx. rewrite Hxid, <- Hid. by apply list_elem_of_fmap_2.
  - apply elem_of_cons in Hin as [->|Hin]; [done|]. by apply IH.
Qed.

Lemma find_by_id_elem (l : list Item) fid facility :
  List.find (λ it, bool_decide (item_id it = fid)) l = Some facility →
  facility ∈ l.
Proof.
  induction l as [|x l IH]; [done|]. cbn. case_bool_decide.
  - intros [= ->]. by left.
  - intros Hf. right. by apply IH.
Qed.

(** Writing a list that fits the capacity keeps every list of every item
    within its capacity. *)
Lemma update_keeps_capacity (a : Actor) fid path v facility :
  NoDup (item_id <$> items a) →
  E.items_get a fid = Some facility →
  Forall within_capacity (items a) →
  (E.getProperty facility path = None → v = []) →
  Z.of_nat (length v) ≤ capacity_at facility path →
  Forall within_capacity
    (items (E.with_items
       (map (λ it, if bool_decide (item_id it = fid)
                   then E.set_value path v it else it)) a)).
Proof.
  intros Hnd Hget Hall Hv Hfit. cbn [E.with_items items].
  rewrite Forall_forall in Hall. apply Forall_forall. intros it' Hin.
  apply list_elem_of_fmap in Hin as (it & -> & Hin).
  case_bool_decide as Hid; [|by apply Hall].
  assert (it = facility) as -> by (by eapply find_by_id_unique).
  intros path'.
  destruct (decide (path = path')) as [<-|Hne].
  - destruct (set_value_occupants path v facility Hv) as [-> ->]. done.
  - unfold occupants_at, capacity_at.
    rewrite (set_value_other path path' v facility Hne). by apply Hall.
Qed.

(** An update of a facility's occupants keeps the ids of the items. *)
Lemma update_keeps_ids (a : Actor) fid path v :
  item_id <$> items (E.with_items
     (map (λ it, if bool_decide (item_id it = fid)
                 then E.set_value path v it else it)) a)
  = item_id <$> items a.
Proof.
  cbn [E.with_items items]. induction (items a) as [|it l IH]; [done|].
  cbn [map fmap list_fmap]. f_equal; [|exact IH].
  case_bool_decide; [apply item_id_set_value|done].
Qed.

(** X13: if the items of the view's actor have distinct ids and no occupant
    list is longer than its capacity, both still hold after any drop on an
    occupant slot and after any click on an occupant's delete button. *)
Theorem occupant_handlers_keep_capacity (w : E.World) event target :
  well_kept w →
  well_kept (E._onDropActor event w).2
  ∧ well_kept (E.onDeleteOccupant target w).2.
Proof.
  intros [Hnd Hall]. split.
  - destruct (onDropActor_cases w event) as [Hsame|(data & facility & path & Hd & Hroom)].
    { unfold well_kept, items_of. by rewrite Hsame. }
    destruct (onDropActor_accepted w event data facility path Hd Hroom)
      as (fid & a & _ & Ha & Hget & ->).
    unfold well_kept, items_of in *. rewrite Ha in Hnd, Hall.
    cbn [snd E.this_actor fmap option_fmap option_map default from_option id] in *.
    split; [unfold Datatypes.id in *; by rewrite update_keeps_ids|].
    assert (Z.of_nat (length (occupants_at facility path)) < capacity_at facility path)
      as Hlt by (unfold slots_full in Hroom; unfold occupants_at, capacity_at; lia).
    apply (update_keeps_capacity a fid path _ facility); try done.
    + intros Hn. apply occupants_at_unknown in Hn as [Hn1 Hn2].
      rewrite Hn1, Hn2 in Hlt. cbn in Hlt. lia.
    + rewrite length_app. cbn. lia.
  - destruct (onDeleteOccupant_cases w target)
      as [Hsame|(facility & fid & path & i & Hc)].
    { unfold well_kept, items_of. by rewrite Hsame. }
    destruct (onDeleteOccupant_accepted w target facility fid path i Hc)
      as (a & Ha & Hget & ->).
    unfold well_kept, items_of in *. rewrite Ha in Hnd, Hall.
    cbn [snd E.this_actor fmap option_fmap option_map default from_option id] in *.
    split; [unfold Datatypes.id in *; by rewrite update_keeps_ids|].
    assert (within_capacity facility) as Hw.
    { rewrite Forall_forall in Hall. apply Hall. by eapply find_by_id_elem. }
    apply (update_keeps_capacity a fid path _ facility); try done.
    + intros Hn. apply occupants_at_unknown in Hn as [-> _]. by destruct i.
    + specialize (Hw path). rewrite remove_index_delete.
      case_decide; [|done].
      destruct (decide (Z.to_nat i < length (occupants_at facility path))%nat).
      * rewrite length_delete by (by apply lookup_lt_is_Some). lia.
      * rewrite list_delete_past_end by lia. done.
Qed.

(** ** Facilities: dropping and deleting *)

(** X14: a drop on a facility slot writes the actor only by adding the
    dropped item, and only when the user owns the actor or is a game master,
    the payload is an item that the host finds, the item is a facility of the
    type of the slot, and its level is at most the actor's level (missing
    levels count as 0); it then raises the notice that the facility was
    added.  In every other case the actor is left as it was. *)
Theorem facility_drop_adds_only_checked_items fromUuid (w : E.World) event :
  E.this_actor (E._onDropFacility fromUuid event w).2 = E.this_actor w
  ∨ ∃ a data item slotType,
      E.this_actor w = Some a
      ∧ E.this_actor (E._onDropFacility fromUuid event w).2
        = Some (E.with_items (λ l, l ++ [item]) a)
      ∧ (isOwner a = true ∨ E.game_user_isGM w = true)
      ∧ E.drag_data event = Some data
      ∧ E.d_type data = Some "Item"
      ∧ fromUuid (E.d_uuid data) = Some item
      ∧ E.facilityType event = Some slotType
      ∧ item_type item = "facility"
      ∧ sys_type_value item = Some slotType
      ∧ default 0 (sys_level item) ≤ default 0 (details_level a)
      ∧ E.notifications (E._onDropFacility fromUuid event w).2
        = E.notifications w
          ++ [notice E.info "BASTION_MANAGER.Notifications.FacilityAdded"].
Proof.
  unfold E._onDropFacility, mbind, E.M_bind, E.get_actor, E.get_isGM.
  cbn [fst snd].
  destruct (negb (default false (isOwner <$> E.this_actor w))
            && negb (E.game_user_isGM w)) eqn:Hedit; [by left|].
  destruct (E.drag_data event) as [data|] eqn:Hdata; [|by left].
  case_bool_decide as Htype; cbn [negb]; [|by left].
  destruct (E.facilityType event) as [slotType|] eqn:Hslot; [|by left].
  destruct (Js.str_truthy (Some slotType)) eqn:Ts; [|by left].
  cbn [negb default]. change (Datatypes.id slotType) with slotType.
  destruct (fromUuid (E.d_uuid data)) as [item|] eqn:Hitem; [|by left].
  case_bool_decide as Hkind; cbn [negb]; [|by left].
  case_bool_decide as Hty; cbn [negb]; [|by left].
  destruct (E.this_actor w) as [a|] eqn:Ha; [|by left].
  rewrite !int_or_default_0.
  destruct (default 0 (sys_level item) >? default 0 (details_level a)) eqn:Hlv;
    [by left|].
  right. exists a, data, item, slotType.
  unfold E.createEmbeddedDocuments, E.modify_items, E.notify, E.render.
  cbn. rewrite Ha. cbn.
  split_and!; try done.
  - cbn in Hedit. apply andb_false_iff in Hedit as [H|H].
    + left. by destruct (isOwner a).
    + right. by destruct (E.game_user_isGM w).
  - rewrite Z.gtb_ltb in Hlv. apply Z.ltb_ge in Hlv. lia.
Qed.

Lemma prepared_values fromUuid (a : Actor) advancement overrides :
  value (f_basic (_prepareFacilitiesContext fromUuid (Some a) advancement overrides))
  = Some (Z.of_nat (length (facilities_of a basic)))
  ∧ value (f_special (_prepareFacilitiesContext fromUuid (Some a) advancement overrides))
    = Some (Z.of_nat (length (filter (λ it, sys_free it = false)
                                (facilities_of a special)))).
Proof.
  destruct (prepared_slots fromUuid a advancement overrides) as [-> ->].
  match goal with |- context [ensure_build_slot ?x] =>
    destruct (ensure_build_slot_fields x) as (_ & -> & _)
  end.
  cbn [slots_for value]. split; do 2 f_equal.
  - rewrite filter_all by (intros x; by rewrite bool_decide_true).
    by rewrite length_fmap.
  - apply (length_filter_fmap (_prepareFacilityContext fromUuid)
             (λ it : Item, sys_free it = false)
             (λ f : FacilityCtx, bool_decide (special = basic) || negb (free f) = true)).
    intros x. cbn. by destruct (sys_free x).
Qed.

Lemma filter_one {A} (P : A → Prop) `{!∀ x, Decision (P x)} (x : A) :
  filter P [x] = if decide (P x) then [x] else [].
Proof. rewrite filter_cons, filter_nil. by case_decide. Qed.

Lemma facilities_of_add (a : Actor) (item : Item) (t : FacilityType) :
  item_type item = "facility" →
  facilities_of (E.with_items (λ l, l ++ [item]) a) t
  = facilities_of a t
    ++ match t with
       | basic => if decide (¬ is_special item) then [item] else []
       | special => if decide (is_special item) then [item] else []
       end.
Proof.
  intros Hkind. unfold facilities_of, itemTypes_facility, E.with_items.
  cbn [items]. rewrite filter_app, filter_one, decide_True by done.
  destruct t; by rewrite filter_app, filter_one.
Qed.

(** X15: once a facility item is added to the actor, the detail view counts
    it: the basic [value] grows by one for an item that is not special, the
    special [value] grows by one for a special item that is not free, and no
    other count changes.  The maxima stay as they were, so a count can pass
    its maximum. *)
Theorem added_facility_is_counted fromUuid (a : Actor) (item : Item)
    advancement overrides :
  item_type item = "facility" →
  let before := _prepareFacilitiesContext fromUuid (Some a) advancement overrides in
  let after :=
    _prepareFacilitiesContext fromUuid
      (Some (E.with_items (λ l, l ++ [item]) a)) advancement overrides in
  ∃ vb vs,
    value (f_basic before) = Some vb
    ∧ value (f_special before) = Some vs
    ∧ value (f_basic after)
      = Some (vb + if decide (is_special item) then 0 else 1)
    ∧ value (f_special after)
      = Some (vs + if decide (is_special item ∧ sys_free item = false) then 1 else 0)
    ∧ max (f_basic after) = max (f_basic before)
    ∧ max (f_special after) = max (f_special before).
Proof.
  intros Hkind before after. subst before after.
  destruct (prepared_values fromUuid a advancement overrides) as [-> ->].
  destruct (prepared_values fromUuid (E.with_items (λ l, l ++ [item]) a)
              advancement overrides) as [-> ->].
  rewrite !(facilities_of_add a item _ Hkind).
  do 2 eexists. split_and!; [reflexivity|reflexivity|..].
  - f_equal. rewrite length_app.
    destruct (decide (is_special item)).
    + rewrite decide_False by tauto. cbn. lia.
    + rewrite decide_True by done. cbn. lia.
  - f_equal. rewrite filter_app, length_app.
    destruct (decide (is_special item)) as [Hs|Hs]; [|by rewrite decide_False by tauto; cbn; lia].
    rewrite filter_one.
    destruct (decide (sys_free item = false)) as [Hf|Hf].
    + rewrite decide_True by done. cbn. lia.
    + rewrite decide_False by tauto. cbn. lia.
  - pose proof (prepared_max fromUuid a advancement overrides basic) as [H1 _].
    pose proof (prepared_max fromUuid (E.with_items (λ l, l ++ [item]) a)
                  advancement overrides basic) as [H2 _].
    cbn [slots_of] in H1, H2. by rewrite H1, H2.
  - pose proof (prepared_max fromUuid a advancement overrides special) as [H1 _].
    pose proof (prepared_max fromUuid (E.with_items (λ l, l ++ [item]) a)
                  advancement overrides special) as [H2 _].
    cbn [slots_of] in H1, H2. by rewrite H1, H2.
Qed.

Lemma delete_first_found (l : list Item) fid facility :
  List.find (λ it, bool_decide (item_id it = fid)) l = Some facility →
  S (length (E.delete_first fid l)) = length l
  ∧ (∀ id, id ≠ fid →
       List.find (λ it, bool_decide (item_id it = id)) (E.delete_first fid l)
       = List.find (λ it, bool_decide (item_id it = id)) l)
  ∧ (NoDup (item_id <$> l) →
     List.find (λ it, bool_decide (item_id it = fid)) (E.delete_first fid l) = None).
Proof.
  induction l as [|x l IH]; [done|].
  cbn [List.find E.delete_first]. case_bool_decide as Hx.
  - intros _. split_and!; [done| |].
    + intros id Hne. by rewrite bool_decide_false by congruence.
    + rewrite fmap_cons. intros [Hnot _]%NoDup_cons.
      destruct (List.find _ l) as [y|] eqn:Hy; [|done].
      exfalso. apply Hnot. apply find_some in Hy as [Hin Hid].
      apply bool_decide_eq_true in Hid. rewrite Hx, <- Hid.
      apply list_elem_of_fmap_2. by apply list_elem_of_In.
  - intros Hf. destruct (IH Hf) as (Hlen & Hother & Hgone). split_and!.
    + cbn [length]. by rewrite Hlen.
    + intros id Hne. cbn [List.find]. case_bool_decide; [done|by apply Hother].
    + rewrite fmap_cons. intros [_ Hnd]%NoDup_cons. cbn [List.find].
      rewrite bool_decide_false by done. by apply Hgone.
Qed.

(** X16: a click on the delete button of a facility of the actor changes
    nothing unless the confirmation is given; with it, the facility found
    under the clicked id is removed and no other item: the actor has one
    item less, every other id finds the item it found before, the clicked id
    finds nothing when the ids are distinct, and the deletion is notified
    and the view rendered again. *)
Theorem delete_facility_needs_confirmation (w : E.World) target fid a facility :
  E.t_facilityId target = Some fid → fid ≠ "" →
  E.this_actor w = Some a → E.items_get a fid = Some facility →
  E.onDeleteFacility target false w = (E.Returned (), w)
  ∧ ∃ a',
      E.this_actor (E.onDeleteFacility target true w).2 = Some a'
      ∧ S (length (items a')) = length (items a)
      ∧ (∀ id, id ≠ fid → E.items_get a' id = E.items_get a id)
      ∧ (NoDup (item_id <$> items a) → E.items_get a' fid = None)
      ∧ E.notifications (E.onDeleteFacility target true w).2
        = E.notifications w
          ++ [notice E.info "BASTION_MANAGER.Notifications.FacilityDeleted"]
      ∧ E.renders (E.onDeleteFacility target true w).2 = S (E.renders w).
Proof.
  intros Hfid Hne Ha Hget.
  unfold E.onDeleteFacility. rewrite Hfid, (str_truthy_Some _ Hne).
  cbn [negb default]. change (Datatypes.id fid) with fid.
  unfold mbind, E.M_bind, E.get_actor. rewrite Ha. cbn [mbind option_bind].
  rewrite Hget. split; [done|].
  unfold E.modify_items, E.notify, E.render. cbn. rewrite Ha. cbn.
  eexists. split; [reflexivity|]. cbn [E.with_items items].
  destruct (delete_first_found (items a) fid facility Hget) as (Hlen & Hother & Hgone).
  split_and!; done.
Qed.

(** ** The overview: claimed characters and cards *)

Lemma claimed_loop_true OWNER users (entries : list (string * Z)) :
  C.claimed_loop OWNER users entries = true
  ↔ ∃ userId user,
      (userId, OWNER) ∈ entries ∧ userId ≠ "default"
      ∧ users !! userId = Some user ∧ Manager.isGM user = false.
Proof.
  induction entries as [|[uid lvl] rest IH].
  - split; [done|]. intros (? & ? & Hin & _). by apply elem_of_nil in Hin.
  - cbn [C.claimed_loop].
    assert (C.claimed_loop OWNER users rest = true
            → ∃ userId user, (userId, OWNER) ∈ (uid, lvl) :: rest
                ∧ userId ≠ "default" ∧ users !! userId = Some user
                ∧ Manager.isGM user = false) as Hrest.
    { intros (u & usr & Hin & H)%IH. exists u, usr. split; [by right|done]. }
    assert (∀ userId user,
              (userId, OWNER) ∈ (uid, lvl) :: rest → userId ≠ "default" →
              users !! userId = Some user → Manager.isGM user = false →
              (uid = userId ∧ lvl = OWNER) ∨ C.claimed_loop OWNER users rest = true)
      as Hcases.
    { intros u usr Hin Hd Hu Hg. apply elem_of_cons in Hin as [[= -> ->]|Hin];
        [by left|]. right. apply IH. by exists u, usr. }
    case_bool_decide as Hdef.
    + split; [done|]. intros (u & usr & Hin & Hd & Hu & Hg).
      destruct (Hcases u usr Hin Hd Hu Hg) as [[-> _]|H]; done.
    + destruct (users !! uid) as [usr0|] eqn:Hu0.
      * destruct (Manager.isGM usr0) eqn:Hg0; cbn [negb andb].
        -- split; [done|]. intros (u & usr & Hin & Hd & Hu & Hg).
           destruct (Hcases u usr Hin Hd Hu Hg) as [[-> _]|H]; [congruence|done].
        -- case_bool_decide as Hl.
           ++ split; [|done]. intros _. exists uid, usr0. subst lvl.
              split_and!; [by left|done..].
           ++ split; [done|]. intros (u & usr & Hin & Hd & Hu & Hg).
              destruct (Hcases u usr Hin Hd Hu Hg) as [[_ ->]|H]; done.
      * split; [done|]. intros (u & usr & Hin & Hd & Hu & Hg).
        destruct (Hcases u usr Hin Hd Hu Hg) as [[-> _]|H]; [congruence|done].
Qed.

Lemma isPlayerClaimed_claimed OWNER (game : Manager.Game) (a : Actor) :
  C._isPlayerClaimed OWNER game a = true ↔ claimed_by_player OWNER game a.
Proof.
  unfold C._isPlayerClaimed, claimed_by_player. rewrite claimed_loop_true.
  split; intros (u & usr & H & Hrest); exists u, usr; split; try done;
    by apply elem_of_map_to_list.
Qed.

(** X17: [_isPlayerClaimed] holds exactly when the ownership map of the
    actor gives the owner level to a known user who is not a game master,
    under a key other than ['default']; an owner level held only by game
    masters, by unknown users or as the default does not count. *)
Theorem isPlayerClaimed_iff OWNER (game : Manager.Game) (a : Actor) :
  C._isPlayerClaimed OWNER game a = true ↔ claimed_by_player OWNER game a.
Proof.
  unfold C._isPlayerClaimed, claimed_by_player. rewrite claimed_loop_true.
  split; intros (u & usr & H & Hrest); exists u, usr; split; try done;
    by apply elem_of_map_to_list.
Qed.


Lemma canViewBastion_true_iff (game : Manager.Game) actorId userId :
  Manager.canViewBastion game actorId (Some userId) = Js.boolean true
  ↔ privileged game userId ∨ owns_actor game actorId
    ∨ marked_public game actorId ∨ lists_user game actorId userId.
Proof.
  unfold Manager.canViewBastion. cbn [default]. rewrite visibility_lookup.
  rewrite <- privileged_iff, <- owns_actor_iff, <- (shared_iff game actorId userId).
  destruct (default false (Manager.isGM <$> _)); [by intuition|].
  destruct (default false (isOwner <$> _)); [by intuition|].
  cbn zeta. intuition congruence.
Qed.

Lemma canViewBastion_truthy (game : Manager.Game) actorId userId :
  Js.truthy (Manager.canViewBastion game actorId userId) = true
  ↔ Manager.canViewBastion game actorId userId = Js.boolean true.
Proof.
  unfold Manager.canViewBastion.
  destruct (default false (Manager.isGM <$> _)); [done|].
  destruct (default false (isOwner <$> _)); [done|].
  cbn zeta. unfold Js.or.
  destruct (Manager.vis_public _) as [[]|], (Manager.vis_users _) as [l|];
    cbn; try case_bool_decide; cbn; split; congruence.
Qed.

Lemma viewable_iff (game : Manager.Game) id :
  Js.truthy (Manager.canViewBastion game id None) = true ↔ viewable game id.
Proof. rewrite canViewBastion_truthy. apply canViewBastion_true_iff. Qed.

Lemma cards_loop_eq advancement (game : Manager.Game) l acc :
  C.cards_loop advancement game l acc
  = acc ++ ((λ e, C.make_card advancement game e.1 e.2)
            <$> filter (λ e, Js.truthy (Manager.canViewBastion game e.1 None) = true) l).
Proof.
  revert acc. induction l as [|[id a] l IH]; intros acc.
  - cbn. by rewrite app_nil_r.
  - cbn [C.cards_loop]. rewrite filter_cons. cbn [fst snd].
    destruct (Js.truthy (Manager.canViewBastion game id None)) eqn:Hv; cbn [negb].
    + rewrite decide_True by done. rewrite IH, <- app_assoc. done.
    + rewrite decide_False by done. apply IH.
Qed.

Lemma cards_elem OWNER advancement (game : Manager.Game) (c : C.Card) :
  c ∈ C._prepareBastionsContext OWNER advancement game
  ↔ ∃ id a,
      c = C.make_card advancement game id a
      ∧ claimed_character OWNER game id a
      ∧ Manager.isBastionEnabled game id = true
      ∧ viewable game id.
Proof.
  unfold C._prepareBastionsContext. rewrite cards_loop_eq, app_nil_l.
  rewrite list_elem_of_fmap. split.
  - intros ([id a] & -> & Hin).
    apply list_elem_of_filter in Hin as [Hview Hin].
    apply list_elem_of_filter in Hin as [(Hkind & Hclaim & Hen) Hin].
    apply elem_of_map_to_list in Hin. cbn [fst snd] in *.
    exists id, a. split_and!; try done.
    + split_and!; try done. by apply isPlayerClaimed_claimed.
    + by apply viewable_iff.
  - intros (id & a & -> & (Hin & Hkind & Hclaim) & Hen & Hview).
    exists (id, a). split; [done|].
    apply list_elem_of_filter. split; [by apply viewable_iff|].
    apply list_elem_of_filter. split; [|by apply elem_of_map_to_list].
    cbn [fst snd]. split_and!; try done. by apply isPlayerClaimed_claimed.
Qed.

(** X18: the overview has a card for an actor exactly when the actor is a
    character claimed by a player, its bastion is not disabled and the
    current user may view it; the card is the one made from that actor, and
    no actor has two cards.  A disabled bastion has no card for anyone, game
    masters included. *)
Theorem overview_cards OWNER advancement (game : Manager.Game) :
  (∀ c, c ∈ C._prepareBastionsContext OWNER advancement game
        ↔ ∃ id a,
            c = C.make_card advancement game id a
            ∧ claimed_character OWNER game id a
            ∧ Manager.isBastionEnabled game id = true
            ∧ viewable game id)
  ∧ NoDup (C.actorId <$> C._prepareBastionsContext OWNER advancement game).
Proof.
  split; [intros c; apply cards_elem|].
  unfold C._prepareBastionsContext. rewrite cards_loop_eq, app_nil_l.
  rewrite <- list_fmap_compose.
  rewrite (list_fmap_ext _ fst) by (by intros ? []).
  eapply sublist_NoDup; [apply (NoDup_fst_map_to_list (Manager.actors game))|].
  apply fmap_sublist. etrans; apply sublist_filter.
Qed.

Lemma facility_counts (l : list Item) :
  (length (filter (λ f, sys_type_value f = Some "basic") l)
   ≤ length (filter (λ it, ¬ is_special it) l))%nat
  ∧ (length (filter (λ it, sys_free it = false) (filter is_special l))
     ≤ length (filter (λ f, sys_type_value f = Some "special") l))%nat
  ∧ (length (filter (λ it, ¬ is_special it) l)
     + length (filter (λ f, sys_type_value f = Some "special") l))%nat
    = length l.
Proof.
  unfold is_special. induction l as [|it l (IH1 & IH2 & IH3)]; [done|].
  rewrite !filter_cons.
  destruct (decide (sys_type_value it = Some "special")) as [Hs|Hs].
  - rewrite decide_False by congruence. rewrite decide_False by tauto.
    rewrite filter_cons. case_decide; cbn [length]; lia.
  - rewrite (decide_True (P := ¬ _)) by done.
    case_decide; cbn [length]; lia.
Qed.

(** X19: a card and the detail view count the facilities of an actor in
    different ways.  The card's special count includes free special
    facilities, so it is at least the detail view's special [value]; the
    card's basic count takes only the type ['basic'], so it is at most the
    detail view's basic [value], which takes every facility that is not
    special; and the detail view's basic [value] and the card's special
    count add up to the card's total. *)
Theorem card_counts_against_detail fromUuid advancement advancement' overrides
    (game : Manager.Game) (id : string) (a : Actor) :
  let c := C.make_card advancement game id a in
  let f := _prepareFacilitiesContext fromUuid (Some a) advancement' overrides in
  ∃ vb vs,
    value (f_basic f) = Some vb ∧ value (f_special f) = Some vs
    ∧ C.basicCount c ≤ vb
    ∧ vs ≤ C.specialCount c
    ∧ vb + C.specialCount c = C.totalFacilities c.
Proof.
  intros c f. subst c f.
  destruct (prepared_values fromUuid a advancement' overrides) as [-> ->].
  cbn [C.make_card C.basicCount C.specialCount C.totalFacilities].
  unfold facilities_of.
  destruct (facility_counts (itemTypes_facility a)) as (H1 & H2 & H3).
  do 2 eexists. split_and!; [reflexivity|reflexivity|lia..].
Qed.

Lemma foldl_insert_lookup {A} (f : string → Js.value) (g : A → string)
    (l : list A) (m : gmap string Js.value) (id : string) :
  foldl (λ (enabled : gmap string Js.value) e, <[g e := f (g e)]> enabled) m l !! id
  = if decide (id ∈ g <$> l) then Some (f id) else m !! id.
Proof.
  revert m. induction l as [|e l IH]; intros m.
  - cbn. rewrite decide_False; [done|]. apply not_elem_of_nil.
  - cbn [foldl]. rewrite IH, fmap_cons.
    destruct (decide (id ∈ g <$> l)) as [Hin|Hin].
    + rewrite decide_True; [done|]. by right.
    + destruct (decide (id = g e)) as [->|Hne].
      * rewrite decide_True by (by left). by rewrite lookup_insert_eq.
      * rewrite decide_False by (intros [?|?]%elem_of_cons; done).
        by rewrite lookup_insert_ne.
Qed.

Lemma claimed_characters_elem OWNER (game : Manager.Game) id :
  id ∈ fst <$> filter (λ e : string * Actor,
                         actor_kind e.2 = "character"
                         ∧ C._isPlayerClaimed OWNER game e.2 = true)
                      (map_to_list (Manager.actors game))
  ↔ ∃ a, claimed_character OWNER game id a.
Proof.
  rewrite list_elem_of_fmap. split.
  - intros ([id' a] & -> & [[Hk Hc] Hin]%list_elem_of_filter).
    exists a. apply elem_of_map_to_list in Hin. cbn in *.
    split_and!; try done. by apply isPlayerClaimed_claimed.
  - intros (a & Hin & Hk & Hc). exists (id, a). split; [done|].
    apply list_elem_of_filter. split; [|by apply elem_of_map_to_list].
    cbn. split; [done|]. by apply isPlayerClaimed_claimed.
Qed.

Lemma manage_save_enabled OWNER (game : Manager.Game)
    (checked : string → option bool) (id : string) :
  Manager.isGM (Manager.user game) = true →
  ((∃ a, claimed_character OWNER game id a) →
   Manager.isBastionEnabled (C.manage_save OWNER game checked) id
   = default false (checked id))
  ∧ (¬ (∃ a, claimed_character OWNER game id a) →
     Manager.isBastionEnabled (C.manage_save OWNER game checked) id = true).
Proof.
  unfold C.manage_save. intros ->. cbn [negb].
  unfold Manager.isBastionEnabled. cbn [Manager.with_enabledBastions
    Manager.enabledBastions from_option Datatypes.id].
  rewrite (foldl_insert_lookup (λ k, Js.boolean (default false (checked k))) fst).
  split; intros Hc.
  - rewrite decide_True by (by apply claimed_characters_elem).
    cbn. by destruct (default false (checked id)).
  - rewrite decide_False by (by rewrite claimed_characters_elem).
    by rewrite lookup_empty.
Qed.

(** X20: when a game master saves the manage dialog, the bastion of every
    character claimed by a player is enabled exactly when its box is
    checked, a character without a box counting as unchecked; the stored
    mapping is replaced, so every other actor is enabled afterwards,
    whatever was stored for it.  For any other user nothing changes. *)
Theorem manage_save_enables OWNER (game : Manager.Game)
    (checked : string → option bool) (id : string) :
  (Manager.isGM (Manager.user game) = true →
   ((∃ a, claimed_character OWNER game id a) →
    Manager.isBastionEnabled (C.manage_save OWNER game checked) id
    = default false (checked id))
   ∧ (¬ (∃ a, claimed_character OWNER game id a) →
      Manager.isBastionEnabled (C.manage_save OWNER game checked) id = true))
  ∧ (Manager.isGM (Manager.user game) = false →
     C.manage_save OWNER game checked = game).
Proof.
  split.
  - apply manage_save_enabled.
  - unfold C.manage_save. by intros ->.
Qed.

(** X21: after a game master who is among the users saves the manage
    dialog, the overview shows that game master a card for exactly the
    characters claimed by a player whose box was checked. *)
Theorem manage_save_then_overview OWNER advancement (game : Manager.Game)
    (checked : string → option bool) (id : string) :
  Manager.isGM (Manager.user game) = true →
  Manager.users game !! Manager.user_id (Manager.user game)
  = Some (Manager.user game) →
  (∃ c, c ∈ C._prepareBastionsContext OWNER advancement
              (C.manage_save OWNER game checked)
        ∧ C.actorId c = id)
  ↔ (∃ a, claimed_character OWNER game id a) ∧ checked id = Some true.
Proof.
  intros Hgm Hme.
  assert (C.manage_save OWNER game checked
          = Manager.with_enabledBastions
              (default ∅ (Manager.enabledBastions (C.manage_save OWNER game checked)))
              game) as Hshape.
  { unfold C.manage_save. by rewrite Hgm. }
  assert (∀ i a, claimed_character OWNER (C.manage_save OWNER game checked) i a
                 ↔ claimed_character OWNER game i a) as Hsame.
  { intros i a. by rewrite Hshape. }
  assert (∀ i, viewable (C.manage_save OWNER game checked) i) as Hview.
  { intros i. left. rewrite Hshape. by exists (Manager.user game). }
  split.
  - intros (c & (i & a & -> & Hc & Hen & _)%cards_elem & <-).
    cbn [C.make_card C.actorId]. apply Hsame in Hc.
    destruct (manage_save_enabled OWNER game checked i Hgm) as [Hyes _].
    rewrite Hyes in Hen by eauto.
    split; [eauto|]. by destruct (checked i) as [[]|].
  - intros [[a Hc] Hchk].
    exists (C.make_card advancement (C.manage_save OWNER game checked) id a).
    split; [|done]. apply cards_elem. exists id, a.
    split_and!; [done|by apply Hsame| |apply Hview].
    destruct (manage_save_enabled OWNER game checked id Hgm) as [Hyes _].
    rewrite Hyes by eauto. by rewrite Hchk.
Qed.


(** X22: the add-facility button opens the browser on the slot's type
    ("basic" when the slot names none) and the actor's level, for a user who
    owns the actor or is a game master.  Whatever item resolves from the
    uuid picked there is added to the actor and the view is rendered again:
    the handler itself looks at neither the type nor the level of the item.
    In every other case the handler leaves everything as it was.  It never
    raises a notification. *)
Theorem add_facility_adds_picked_item fromUuid selectOne (w : E.World)
    (facilityType : option string) :
  let r := E.onAddFacility fromUuid selectOne facilityType w in
  let slotType :=
    if Js.str_truthy facilityType then default "" facilityType else "basic" in
  E.notifications r.2 = E.notifications w
  ∧ (∀ a picked item,
       E.this_actor w = Some a →
       isOwner a = true ∨ E.game_user_isGM w = true →
       selectOne slotType (details_level a) = Some picked → picked ≠ "" →
       fromUuid picked = Some item →
       r = (E.Returned (),
            {| E.this_actor := Some (E.with_items (λ l, l ++ [item]) a);
               E.game_user_isGM := E.game_user_isGM w;
               E.notifications := E.notifications w;
               E.renders := S (E.renders w) |}))
  ∧ (r.2 = w
     ∨ ∃ a picked item,
         E.this_actor w = Some a
         ∧ (isOwner a = true ∨ E.game_user_isGM w = true)
         ∧ selectOne slotType (details_level a) = Some picked ∧ picked ≠ ""
         ∧ fromUuid picked = Some item
         ∧ E.this_actor r.2 = Some (E.with_items (λ l, l ++ [item]) a)).
Proof.
  intros r slotType. subst r slotType.
  unfold E.onAddFacility, mbind, E.M_bind, E.get_actor, E.get_isGM.
  cbn [fst snd].
  destruct (negb (default false (isOwner <$> E.this_actor w))
            && negb (E.game_user_isGM w)) eqn:Hedit.
  { split_and!; [done| |by left].
    intros a picked item Ha Hmay. rewrite Ha in Hedit. cbn in Hedit.
    destruct Hmay as [Ho|Hg]; [rewrite Ho in Hedit|rewrite Hg in Hedit];
      cbn in Hedit; [done|]. by rewrite andb_false_r in Hedit. }
  destruct (E.this_actor w) as [a|] eqn:Ha.
  2:{ split_and!; [done|by intros ? ? ? [=]|by left]. }
  assert (isOwner a = true ∨ E.game_user_isGM w = true) as Hmay.
  { cbn in Hedit. apply andb_false_iff in Hedit as [H|H].
    - left. by destruct (isOwner a).
    - right. by destruct (E.game_user_isGM w). }
  destruct (selectOne _ (details_level a)) as [picked|] eqn:Hpick.
  2:{ cbn. split_and!; [done| |by left].
      intros a0 p0 i0 [= <-] _ Hp. congruence. }
  destruct (Js.str_truthy (Some picked)) eqn:Htruthy.
  2:{ cbn. split_and!; [done| |by left].
      intros a0 p0 i0 [= <-] _ Hp Hne. exfalso.
      rewrite Hpick in Hp. injection Hp as <-. cbn in Htruthy.
      by destruct (String.eqb_spec picked ""). }
  cbn [default]. change (Datatypes.id picked) with picked.
  destruct (fromUuid picked) as [item|] eqn:Hitem.
  2:{ cbn. split_and!; [done| |by left].
      intros a0 p0 i0 [= <-] _ Hp _ Hit.
      rewrite Hpick in Hp. injection Hp as <-. congruence. }
  unfold E.createEmbeddedDocuments, E.modify_items, E.render.
  cbn. rewrite Ha. cbn. split_and!; [done| |].
  - intros a0 p0 i0 [= <-] _ Hp _ Hit.
    rewrite Hpick in Hp. injection Hp as <-.
    rewrite Hitem in Hit. by injection Hit as <-.
  - right. exists a, picked, item. split_and!; try done.
    intros ->. discriminate Htruthy.
Qed.

(** ** Saving the settings dialog *)

Lemma text_or_not_empty (text fallback : option string) :
  fallback ≠ Some "" → Dlg.text_or text fallback ≠ Some "".
Proof.
  unfold Dlg.text_or. destruct text as [t|]; cbn; [|done].
  destruct (String.eqb_spec t ""); cbn; [done|congruence].
Qed.

Lemma text_or_entered (text fallback : option string) :
  Dlg.text_or text fallback
  = match entered text with Some s => Some s | None => fallback end.
Proof.
  unfold Dlg.text_or, entered. destruct text as [t|]; cbn; [|done].
  destruct (String.eqb_spec t ""); cbn; by case_decide.
Qed.

(** X23: the display data built from the settings form hold the name and the
    image entered, and [null] when the input is missing or empty; the
    colours entered, and the defaults "#2d2d2d" (accent) and "#ffffff" (text)
    when the input is missing or empty; the fade entered, and 70 when the
    input is missing, holds no number or holds 0; and a flag that is set
    exactly when its box is checked.  So they never hold an empty name,
    image or colour, nor a fade of 0. *)
Theorem newBastionData_has_no_empty_value (form : Dlg.SettingsForm) :
  let d := Dlg.newBastionData form in
  (Manager.bd_name d = entered (Dlg.f_bastionName form)
   ∧ Manager.bd_name d ≠ Some "")
  ∧ (Manager.bd_image d = entered (Dlg.f_bastionImage form)
     ∧ Manager.bd_image d ≠ Some "")
  ∧ (Manager.bd_accentColor d
     = Some (default "#2d2d2d" (entered (Dlg.f_accentColor form)))
     ∧ Manager.bd_accentColor d ≠ Some "")
  ∧ (Manager.bd_textColor d
     = Some (default "#ffffff" (entered (Dlg.f_textColor form)))
     ∧ Manager.bd_textColor d ≠ Some "")
  ∧ (Manager.bd_fadeAmount d
     = Some (default 70 (entered_number (Dlg.f_fadeAmount form)))
     ∧ Manager.bd_fadeAmount d ≠ Some 0)
  ∧ Manager.bd_disableFade d
    = Some (bool_decide (Dlg.f_disableFade form = Some true))
  ∧ Manager.bd_textOutline d
    = Some (bool_decide (Dlg.f_textOutline form = Some true)).
Proof.
  cbn. split_and!.
  - rewrite text_or_entered. by destruct (entered _).
  - by apply text_or_not_empty.
  - rewrite text_or_entered. by destruct (entered _).
  - by apply text_or_not_empty.
  - rewrite text_or_entered. by destruct (entered _).
  - by apply text_or_not_empty.
  - rewrite text_or_entered. by destruct (entered _).
  - by apply text_or_not_empty.
  - unfold entered_number. destruct (Dlg.f_fadeAmount form) as [n|]; cbn; [|done].
    destruct (Z.eqb_spec n 0); by case_decide.
  - destruct (Dlg.f_fadeAmount form) as [n|]; cbn; [|done].
    destruct (Z.eqb_spec n 0); congruence.
  - by destruct (Dlg.f_disableFade form) as [[]|].
  - by destruct (Dlg.f_textOutline form) as [[]|].
Qed.

Lemma sharedUsers_elem (game : Manager.Game) (form : Dlg.SettingsForm) (u : string) :
  u ∈ Dlg.sharedUsers game form
  ↔ ∃ key p, Manager.users game !! key = Some p
             ∧ Manager.isGM p = false ∧ Manager.user_id p = u
             ∧ Dlg.f_user form u = Some true.
Proof.
  unfold Dlg.sharedUsers, Dlg.players. rewrite list_elem_of_fmap. split.
  - intros (p & -> & [Hc [Hg Hin]%list_elem_of_filter]%list_elem_of_filter).
    apply list_elem_of_fmap in Hin as ([key p'] & -> & Hin).
    apply elem_of_map_to_list in Hin. by exists key, p'.
  - intros (key & p & Hin & Hg & <- & Hc). exists p. split; [done|].
    apply list_elem_of_filter. split; [done|].
    apply list_elem_of_filter. split; [done|].
    apply list_elem_of_fmap. exists (key, p). split; [done|].
    by apply elem_of_map_to_list.
Qed.

(** X24: saving the settings dialog stores, for a user who owns the actor or
    is a game master, the visibility of the form: public when the box is
    checked, and shared with exactly the users that are not game masters and
    whose box is checked, so that no game master is ever listed.  For any
    other user the visibility settings stay as they were; the display data
    are written in every case. *)
Theorem save_settings_visibility mergeObject (store : Manager.Store)
    (actorId : string) (form : Dlg.SettingsForm) :
  let game := Manager.store_game store in
  let store' := Dlg.save_settings mergeObject store actorId form in
  (owns_actor game actorId ∨ Manager.isGM (Manager.user game) = true →
   ∃ listed,
     visibility_of (Manager.store_game store') actorId
     = Some {| Manager.vis_public := Some (default false (Dlg.f_public form));
               Manager.vis_users := Some listed |}
     ∧ ∀ u, u ∈ listed
            ↔ ∃ key p, Manager.users game !! key = Some p
                       ∧ Manager.isGM p = false ∧ Manager.user_id p = u
                       ∧ Dlg.f_user form u = Some true)
  ∧ (¬ owns_actor game actorId → Manager.isGM (Manager.user game) = false →
     Manager.store_game store' = game)
  ∧ Manager.getBastionData store' actorId
    = mergeObject (Manager.getBastionData store actorId) (Dlg.newBastionData form).
Proof.
  intros game store'. subst game store'.
  unfold Dlg.save_settings. cbn [Manager.setBastionData Manager.store_game
    Manager.bastionData].
  pose proof (owns_actor_iff (Manager.store_game store) actorId) as Hown.
  split_and!.
  - intros Hmay. exists (Dlg.sharedUsers (Manager.store_game store) form).
    split; [|intros u; apply sharedUsers_elem].
    unfold Manager.setVisibility.
    assert (negb (default false (isOwner <$>
                    (Manager.actors (Manager.store_game store) !! actorId)))
            && negb (Manager.isGM (Manager.user (Manager.store_game store)))
            = false) as ->.
    { destruct Hmay as [Ho| ->]; [|apply andb_false_r].
      apply Hown in Ho. by rewrite Ho. }
    cbn zeta.
    destruct (Manager.isGM (Manager.user _));
      unfold visibility_of, Manager.setBuildingOverrides; cbn;
      try destruct (Manager.isGM (Manager.user _)); cbn;
      by rewrite lookup_insert_eq.
  - intros Hno Hgm. unfold Manager.setVisibility. cbn zeta.
    rewrite Hgm.
    destruct (default false (isOwner <$> _)) eqn:E;
      [exfalso; by apply Hno, Hown|].
    cbn [negb andb]. by rewrite Hgm.
  - unfold Manager.getBastionData. cbn. by rewrite lookup_insert_eq.
Qed.

(** X25: saving the settings dialog stores building overrides only for a
    game master, who then gets exactly the two numbers of the form from
    [getBuildingOverrides], a number that is missing, not a number or 0
    being stored as 0; for any other user, the owner of the actor included,
    the stored overrides stay as they were. *)
Theorem save_settings_overrides mergeObject (store : Manager.Store)
    (actorId : string) (form : Dlg.SettingsForm) :
  let game := Manager.store_game store in
  let game' := Manager.store_game (Dlg.save_settings mergeObject store actorId form) in
  (Manager.isGM (Manager.user game) = true →
   Manager.getBuildingOverrides game' actorId
   = {| ov_basic := Some (default 0 (Dlg.f_overrideBasic form));
        ov_special := Some (default 0 (Dlg.f_overrideSpecial form)) |})
  ∧ (Manager.isGM (Manager.user game) = false →
     Manager.buildingOverrides game' = Manager.buildingOverrides game).
Proof.
  intros game game'. subst game game'.
  unfold Dlg.save_settings. cbn [Manager.setBastionData Manager.store_game
    Manager.bastionData].
  unfold Manager.setVisibility, Manager.setBuildingOverrides. cbn zeta.
  split; intros Hgm; rewrite Hgm, ?andb_false_r, ?andb_true_r; cbn [negb].
  - cbn. rewrite Hgm. cbn. unfold Manager.getBuildingOverrides. cbn.
    by rewrite lookup_insert_eq, !int_or_default_0.
  - destruct (negb (default false (isOwner <$> _))); cbn; by rewrite Hgm.
Qed.

(** ** The hypotheses of the theorems above, met on the sample inputs *)

Lemma setBastionEnabled_roundtrip_witness :
  Manager.isBastionEnabled
    (Manager.game (Manager.setBastionEnabled (Sample.session Sample.game_master)
                     "hero" true)) "hero" = true
  ∧ Manager.setBastionEnabled (Sample.session Sample.player) "hero" true
    = Sample.session Sample.player.
Proof.
  split.
  - destruct (setBastionEnabled_roundtrip (Sample.session Sample.game_master)
                "hero" true) as [Hgm _].
    exact (proj1 (Hgm eq_refl)).
  - destruct (setBastionEnabled_roundtrip (Sample.session Sample.player)
                "hero" true) as [_ Hother].
    exact (Hother eq_refl).
Defined.

Lemma setBuildingOverrides_roundtrip_witness :
  Manager.getBuildingOverrides
    (Manager.setBuildingOverrides (Sample.claimed_game Sample.game_master) "hero"
       Sample.example_overrides) "hero" = Sample.example_overrides
  ∧ Manager.setBuildingOverrides (Sample.claimed_game Sample.player) "hero"
      Sample.example_overrides = Sample.claimed_game Sample.player.
Proof.
  split.
  - destruct (setBuildingOverrides_roundtrip (Sample.claimed_game Sample.game_master)
                "hero" Sample.example_overrides) as [Hgm _].
    exact (proj1 (Hgm eq_refl)).
  - destruct (setBuildingOverrides_roundtrip (Sample.claimed_game Sample.player)
                "hero" Sample.example_overrides) as [_ Hother].
    exact (Hother eq_refl).
Defined.

Lemma hero_not_owned (me : Manager.User) :
  ¬ owns_actor (Sample.claimed_game me) "hero".
Proof.
  intros (a & Ha & Ho). vm_compute in Ha. injection Ha as <-. discriminate Ho.
Defined.

Lemma setVisibility_then_canView_witness :
  Manager.canViewBastion
    (Manager.setVisibility (Sample.claimed_game Sample.game_master) "hero"
       {| Manager.vis_public := Some false; Manager.vis_users := Some ["player"] |})
    "hero" (Some "player") = Js.boolean true
  ∧ Manager.setVisibility (Sample.claimed_game Sample.player) "hero"
      {| Manager.vis_public := Some false; Manager.vis_users := Some ["player"] |}
    = Sample.claimed_game Sample.player.
Proof.
  split.
  - destruct (setVisibility_then_canView (Sample.claimed_game Sample.game_master)
                "hero" false ["player"] "player") as [Hmay _].
    destruct (Hmay (or_intror eq_refl)) as [Hiff _].
    apply Hiff. right. right. right. apply list_elem_of_here.
  - destruct (setVisibility_then_canView (Sample.claimed_game Sample.player)
                "hero" false ["player"] "player") as [_ Hno].
    exact (Hno (hero_not_owned Sample.player) eq_refl).
Defined.

Lemma bound_slot_is_in_roster_witness :
  {| r_uuid := Some "uuid-A"; r_index := 0;
     facilityId := "f1"; facilityName := "Smithy" |}
  ∈ _prepareDefendersContext (Some Sample.keeper).
Proof.
  refine (proj1 (bound_slot_is_in_roster Sample.only_A Sample.keeper Sample.smithy
                   {| index := 0; uuid := Some "uuid-A";
                      actor := Sample.only_A "uuid-A"; empty := false |}
                   "uuid-A" _ _) _).
  - apply list_elem_of_here.
  - reflexivity.
  - apply list_elem_of_here.
Defined.

Lemma barracks_drop :
  occupant_drop Sample.warden_view Sample.drop_on_barracks Sample.actor_payload
    Sample.barracks "system.defenders".
Proof.
  split_and!; [reflexivity|reflexivity|].
  exists "f2", Sample.warden.
  split_and!; [reflexivity|discriminate|reflexivity|discriminate
              |reflexivity|reflexivity].
Defined.

Lemma barracks_has_room : ¬ slots_full Sample.barracks "system.defenders".
Proof. vm_compute. intros H. apply H. reflexivity. Defined.

Lemma accepted_drop_appends_occupant_witness :
  ∃ facility',
    occupants_at facility' "system.defenders" = [Some "uuid-A"; Some "uuid-B"].
Proof.
  destruct (accepted_drop_appends_occupant Sample.only_A Sample.warden_view
              Sample.drop_on_barracks Sample.actor_payload Sample.barracks
              "system.defenders" barracks_drop barracks_has_room)
    as (fid & a' & facility' & _ & _ & _ & _ & Hocc & _).
  exists facility'. exact Hocc.
Defined.

Lemma first_defender_click :
  occupant_click Sample.warden_view Sample.first_defender Sample.barracks
    "f2" "system.defenders" 0.
Proof.
  split_and!; [reflexivity|discriminate|reflexivity|discriminate|reflexivity|].
  exists Sample.warden. split; reflexivity.
Defined.

Lemma delete_occupant_removes_index_witness :
  ∃ facility', occupants_at facility' "system.defenders" = [].
Proof.
  destruct (delete_occupant_removes_index Sample.warden_view Sample.first_defender
              Sample.barracks "f2" "system.defenders" 0 first_defender_click)
    as (a' & facility' & _ & _ & _ & Hocc & _).
  exists facility'. exact Hocc.
Defined.

Lemma drop_then_delete_restores_witness :
  ∃ facility2, occupants_at facility2 "system.defenders" = [Some "uuid-A"].
Proof.
  destruct (drop_then_delete_restores Sample.warden_view Sample.drop_on_barracks
              Sample.actor_payload Sample.barracks "system.defenders"
              barracks_drop barracks_has_room)
    as (fid & a2 & facility2 & _ & _ & _ & Hocc & _).
  exists facility2. exact Hocc.
Defined.

Lemma barracks_within_capacity : within_capacity Sample.barracks.
Proof.
  intros path. unfold occupants_at, capacity_at, E.getProperty.
  repeat case_bool_decide; cbn; lia.
Defined.

Lemma smithy_within_capacity : within_capacity Sample.smithy.
Proof.
  intros path. unfold occupants_at, capacity_at, E.getProperty.
  repeat case_bool_decide; cbn; lia.
Defined.

Lemma garrison_well_kept : well_kept Sample.garrison_view.
Proof.
  split.
  - apply (NoDup_cons_2 "f2" ["f1"]); [|apply NoDup_singleton].
    intros Hin. apply list_elem_of_singleton in Hin. discriminate Hin.
  - apply Forall_cons_2; [exact barracks_within_capacity|].
    apply Forall_singleton. exact smithy_within_capacity.
Defined.

(** X13 at the garrison, an actor with a barracks and a smithy: a drop on
    the barracks' defenders and a click on its first defender. *)
Lemma occupant_handlers_keep_capacity_witness :
  well_kept Sample.garrison_view
  ∧ well_kept (E._onDropActor Sample.drop_on_barracks Sample.garrison_view).2
  ∧ well_kept (E.onDeleteOccupant Sample.first_defender Sample.garrison_view).2.
Proof.
  split; [exact garrison_well_kept|].
  exact (occupant_handlers_keep_capacity Sample.garrison_view Sample.drop_on_barracks
           Sample.first_defender garrison_well_kept).
Defined.

(** X22 at the keeper's detail view: the item picked in the browser opened
    on the basic slots is a sword, which is no facility, and it is added. *)
Lemma add_facility_adds_picked_item_witness :
  E.onAddFacility (Sample.finds Sample.sword) (Sample.picks "Compendium.items.sword")
    (Some "basic") Sample.detail_view
  = (E.Returned (),
     {| E.this_actor := Some (E.with_items (λ l, l ++ [Sample.sword]) Sample.keeper);
        E.game_user_isGM := E.game_user_isGM Sample.detail_view;
        E.notifications := E.notifications Sample.detail_view;
        E.renders := S (E.renders Sample.detail_view) |}).
Proof.
  refine (proj1 (proj2 (add_facility_adds_picked_item (Sample.finds Sample.sword)
                          (Sample.picks "Compendium.items.sword") Sample.detail_view
                          (Some "basic")))
            Sample.keeper "Compendium.items.sword" Sample.sword _ _ _ _ _).
  - reflexivity.
  - left. reflexivity.
  - reflexivity.
  - discriminate.
  - reflexivity.
Defined.

Lemma added_facility_is_counted_witness :
  ∃ vs,
    value (f_special (_prepareFacilitiesContext Sample.only_A (Some Sample.keeper)
                        Sample.empty_table Sample.zero_overrides)) = Some vs
    ∧ value (f_special (_prepareFacilitiesContext Sample.only_A
                          (Some (E.with_items (λ l, l ++ [Sample.smithy]) Sample.keeper))
                          Sample.empty_table Sample.zero_overrides))
      = Some (vs + 1).
Proof.
  destruct (added_facility_is_counted Sample.only_A Sample.keeper Sample.smithy
              Sample.empty_table Sample.zero_overrides eq_refl)
    as (vb & vs & _ & Hs & _ & Hs' & _).
  exists vs. split; [exact Hs|]. exact Hs'.
Defined.

Lemma delete_facility_needs_confirmation_witness :
  E.onDeleteFacility Sample.first_defender false Sample.warden_view
  = (E.Returned (), Sample.warden_view).
Proof.
  refine (proj1 (delete_facility_needs_confirmation Sample.warden_view
                   Sample.first_defender "f2" Sample.warden Sample.barracks
                   _ _ _ _)).
  - reflexivity.
  - discriminate.
  - reflexivity.
  - reflexivity.
Defined.

Lemma hero_is_claimed (me : Manager.User) :
  ∃ a, claimed_character 3 (Sample.claimed_game me) "hero" a.
Proof.
  eexists. split_and!; [vm_compute; reflexivity|reflexivity|].
  exists "player", Sample.player.
  split_and!; [vm_compute; reflexivity|discriminate
              |vm_compute; reflexivity|reflexivity].
Defined.

Lemma manage_save_enables_witness :
  Manager.isBastionEnabled
    (C.manage_save 3 (Sample.claimed_game Sample.game_master) Sample.all_checked)
    "hero" = true
  ∧ C.manage_save 3 (Sample.claimed_game Sample.player) Sample.all_checked
    = Sample.claimed_game Sample.player.
Proof.
  split.
  - destruct (manage_save_enables 3 (Sample.claimed_game Sample.game_master)
                Sample.all_checked "hero") as [Hgm _].
    destruct (Hgm eq_refl) as [Hyes _].
    exact (Hyes (hero_is_claimed Sample.game_master)).
  - destruct (manage_save_enables 3 (Sample.claimed_game Sample.player)
                Sample.all_checked "hero") as [_ Hother].
    exact (Hother eq_refl).
Defined.

Lemma manage_save_then_overview_witness :
  ∃ c, c ∈ C._prepareBastionsContext 3 Sample.example_table
             (C.manage_save 3 (Sample.claimed_game Sample.game_master)
                Sample.all_checked)
       ∧ C.actorId c = "hero".
Proof.
  refine (proj2 (manage_save_then_overview 3 Sample.example_table
                   (Sample.claimed_game Sample.game_master) Sample.all_checked
                   "hero" eq_refl _) _).
  - vm_compute. reflexivity.
  - split; [exact (hero_is_claimed Sample.game_master)|reflexivity].
Defined.

Lemma save_settings_visibility_witness :
  (∃ listed,
     visibility_of
       (Manager.store_game
          (Dlg.save_settings Sample.takes_new (Sample.store Sample.game_master)
             "hero" Sample.form)) "hero"
     = Some {| Manager.vis_public := Some false; Manager.vis_users := Some listed |}
     ∧ "player" ∈ listed)
  ∧ Manager.store_game
      (Dlg.save_settings Sample.takes_new (Sample.store Sample.player) "hero" Sample.form)
    = Sample.claimed_game Sample.player.
Proof.
  split.
  - destruct (save_settings_visibility Sample.takes_new
                (Sample.store Sample.game_master) "hero" Sample.form)
      as (Hmay & _ & _).
    destruct (Hmay (or_intror eq_refl)) as (listed & Hvis & Hin).
    exists listed. split; [exact Hvis|].
    apply Hin. exists "player", Sample.player.
    split_and!; [vm_compute; reflexivity|reflexivity|reflexivity|reflexivity].
  - destruct (save_settings_visibility Sample.takes_new
                (Sample.store Sample.player) "hero" Sample.form)
      as (_ & Hno & _).
    exact (Hno (hero_not_owned Sample.player) eq_refl).
Defined.

Lemma save_settings_overrides_witness :
  Manager.getBuildingOverrides
    (Manager.store_game
       (Dlg.save_settings Sample.takes_new (Sample.store Sample.game_master)
          "hero" Sample.form)) "hero"
  = {| ov_basic := Some 0; ov_special := Some 1 |}
  ∧ Manager.buildingOverrides
      (Manager.store_game
         (Dlg.save_settings Sample.takes_new (Sample.store Sample.player)
            "hero" Sample.form))
    = None.
Proof.
  split.
  - destruct (save_settings_overrides Sample.takes_new
                (Sample.store Sample.game_master) "hero" Sample.form) as [Hgm _].
    exact (Hgm eq_refl).
  - destruct (save_settings_overrides Sample.takes_new
                (Sample.store Sample.player) "hero" Sample.form) as [_ Hother].
    exact (Hother eq_refl).
Defined.
